(** * Golden Config helpers: a shallow embedding of
      [nautobot_golden_config/utilities/helper.py]

    The Django ORM, the Nautobot models, Jinja2 and the Nornir logger are
    external to the helper module.  They are represented here by the small
    part of their behaviour that the helpers observe: tables are lists of
    rows, a Python [dict] is a [gmap], exceptions are an explicit [result]
    type, and calls to external services are recorded in a trace. *)

From Stdlib Require Import ZArith Lia.
From stdpp Require Import base option list strings gmap pretty.

Local Open Scope string_scope.
Local Open Scope Z_scope.

(** ** Exceptions and results *)

(** The class hierarchy of [jinja2.exceptions] as far as the [except]
    clauses of the helpers tell its members apart. *)
Inductive jinja_error :=
| UndefinedError (message : string)
| TemplateSyntaxError (lineno : N) (message : string)
| TemplateAssertionError (lineno : N) (message : string)
| TemplateError (message : string).

Inductive exn :=
| NornirNautobotException (message : string)
| RenderConfigToPushError (message : string)
| JinjaException (error : jinja_error)
| DoesNotExist (model : string)
| MultipleObjectsReturned (model : string)
| SecretError (message : string)
| KeyError (key : string)
| AttributeError (message : string)
| TypeError (message : string).

Inductive result (A : Type) :=
| Return (value : A)
| Raise (error : exn).
Arguments Return {A} value.
Arguments Raise {A} error.

(** [str(error)] *)
Definition str_jinja_error (e : jinja_error) : string :=
  match e with
  | UndefinedError m | TemplateSyntaxError _ m
  | TemplateAssertionError _ m | TemplateError m => m
  end.

(** [error.lineno] of a [TemplateSyntaxError] (or subclass) *)
Definition jinja_lineno (e : jinja_error) : N :=
  match e with
  | TemplateSyntaxError n _ | TemplateAssertionError n _ => n
  | _ => 0%N
  end.

(** ** The directory: devices, dynamic groups, settings *)

Definition pk := string.

Module Device.
Record t := { id : pk; name : string; platform : option pk }.
End Device.

(** [django.db.models.Q]: the empty [Q()], an opaque lookup condition on a
    device row, and the OR of two non-empty objects. *)
Inductive Q :=
| Q_empty
| Q_lookup (cond : Device.t -> bool)
| Q_OR (lhs rhs : Q).

(** [bool(q)]: a [Q] is falsy when it has no children. *)
Definition Q_bool (q : Q) : bool :=
  match q with Q_empty => false | _ => true end.

(** [lhs | rhs], i.e. [Q._combine(lhs, rhs, OR)]: an empty operand is
    dropped and the other one returned. *)
Definition Q_or (lhs rhs : Q) : Q :=
  if negb (Q_bool rhs) then lhs
  else if negb (Q_bool lhs) then rhs
  else Q_OR lhs rhs.

(** Whether a row is selected by [objects.filter(q)]; the empty [Q()] adds
    no condition. *)
Fixpoint Q_matches (q : Q) (d : Device.t) : bool :=
  match q with
  | Q_empty => true
  | Q_lookup cond => cond d
  | Q_OR lhs rhs => Q_matches lhs d || Q_matches rhs d
  end.

Module DynamicGroup.
(** [generate_query] holds the [Q] the group's stored [filter] evaluates
    to. *)
Record t := { pk : pk; filter : string; generate_query : Q }.
End DynamicGroup.

Module GraphQLQuery.
Record t := { query : string }.
End GraphQLQuery.

Module GoldenConfigSetting.
(** [dynamic_group] is the one-to-one field declared by migration 0021
    (related name [golden_config_setting]). *)
Record t := {
  pk : pk;
  weight : Z;
  dynamic_group : DynamicGroup.t;
  sot_agg_query : option GraphQLQuery.t
}.
End GoldenConfigSetting.

Module SecretsGroup.
(** A secrets group and its associations: (access type, secret type) and
    the outcome of asking the secret's provider for its value. *)
Record t := {
  slug : string;
  secrets : list (string * string * result string)
}.
End SecretsGroup.

Record Database := {
  Device_objects : list Device.t;
  DynamicGroup_objects : list DynamicGroup.t;
  GoldenConfigSetting_objects : list GoldenConfigSetting.t;
  SecretsGroup_objects : list SecretsGroup.t
}.

(** [Model.objects.filter(q)] on the device table *)
Definition Device_objects_filter (db : Database) (q : Q) : list Device.t :=
  List.filter (Q_matches q) (Device_objects db).

(** [Device.objects.filter(pk=...)] *)
Definition Device_objects_filter_pk (db : Database) (pk : pk)
  : list Device.t :=
  List.filter (fun d => String.eqb (Device.id d) pk) (Device_objects db).

(** [device.dynamic_groups]: the groups whose members include the device. *)
Definition dynamic_groups (db : Database) (device : Device.t)
  : list DynamicGroup.t :=
  List.filter (fun g => Q_matches (DynamicGroup.generate_query g) device)
              (DynamicGroup_objects db).

(** [group.golden_config_setting], the reverse side of the one-to-one
    field: the setting row that points to the group, if any. *)
Definition golden_config_setting (db : Database) (g : DynamicGroup.t)
  : option GoldenConfigSetting.t :=
  List.find
    (fun s => String.eqb (DynamicGroup.pk (GoldenConfigSetting.dynamic_group s))
                         (DynamicGroup.pk g))
    (GoldenConfigSetting_objects db).

(** ** [get_device_to_settings_map] *)

(** [.exclude(golden_config_setting__isnull=True)]: the groups joined with
    their setting row; groups without one drop out. *)
Definition exclude_golden_config_setting_isnull (db : Database)
    (groups : list DynamicGroup.t)
  : list (DynamicGroup.t * GoldenConfigSetting.t) :=
  omap (fun g => match golden_config_setting db g with
                 | Some s => Some (g, s)
                 | None => None
                 end) groups.

Definition joined_weight (row : DynamicGroup.t * GoldenConfigSetting.t) : Z :=
  GoldenConfigSetting.weight (snd row).

(** [.order_by("-golden_config_setting__weight")], as a stable insertion
    sort on descending weight.  The database leaves the order of rows of
    equal weight open; nothing below depends on it. *)
Fixpoint insert_by_weight (row : DynamicGroup.t * GoldenConfigSetting.t)
    (sorted : list (DynamicGroup.t * GoldenConfigSetting.t))
  : list (DynamicGroup.t * GoldenConfigSetting.t) :=
  match sorted with
  | [] => [row]
  | r :: rest =>
      if joined_weight row <? joined_weight r
      then r :: insert_by_weight row rest
      else row :: r :: rest
  end.

Definition order_by_weight_desc
    (rows : list (DynamicGroup.t * GoldenConfigSetting.t))
  : list (DynamicGroup.t * GoldenConfigSetting.t) :=
  foldr insert_by_weight [] rows.

(** One iteration of the loop over the queryset. *)
Definition map_device (db : Database)
    (device_to_settings_map : gmap string GoldenConfigSetting.t)
    (device : Device.t) : gmap string GoldenConfigSetting.t :=
  let dynamic_group :=
    order_by_weight_desc
      (exclude_golden_config_setting_isnull db (dynamic_groups db device)) in
  match dynamic_group with
  | first :: _ => <[Device.id device := snd first]> device_to_settings_map
  | [] => device_to_settings_map
  end.

Definition get_device_to_settings_map (db : Database)
    (queryset : list Device.t) : gmap string GoldenConfigSetting.t :=
  foldl (map_device db) ∅ queryset.

(** ** [get_secret_by_secret_group_slug] *)

Module User.
(** [get_all_permissions] holds the set the method returns; an anonymous
    user has [is_authenticated = false]. *)
Record t := {
  is_superuser : bool;
  is_authenticated : bool;
  get_all_permissions : list string
}.
End User.

(** [SecretsGroup.objects.get(slug=...)] *)
Definition SecretsGroup_objects_get (db : Database) (slug : string)
  : result SecretsGroup.t :=
  match List.filter (fun g => String.eqb (SecretsGroup.slug g) slug)
                    (SecretsGroup_objects db) with
  | [] => Raise (DoesNotExist "SecretsGroup")
  | [g] => Return g
  | _ :: _ :: _ => Raise (MultipleObjectsReturned "SecretsGroup")
  end.

(** [secrets_group.get_secret_value(access_type=..., secret_type=...)]: the
    association is fetched with [get] and its secret asked for its value. *)
Definition get_secret_value (g : SecretsGroup.t)
    (access_type secret_type : string) : result string :=
  match List.find (fun a => String.eqb (fst (fst a)) access_type
                            && String.eqb (snd (fst a)) secret_type)
                  (SecretsGroup.secrets g) with
  | Some a => snd a
  | None => Raise (DoesNotExist "SecretsGroupAssociation")
  end.

(** Truth value of a model instance: a Django model defines neither
    [__bool__] nor [__len__]. *)
Definition SecretsGroup_bool (g : SecretsGroup.t) : bool := true.

Definition TYPE_GENERIC : string := "Generic".

Definition permission_secrets_group : string := "extras.view_secretsgroup".

Definition no_permission_message (secrets_group_slug : string) : string :=
  "You have no permission to read this secret " +:+ secrets_group_slug +:+ ".".

(** The statements after the permission gate. *)
Definition lookup_secret (db : Database)
    (secrets_group_slug secret_type secret_access_type : string)
  : result (option string) :=
  match SecretsGroup_objects_get db secrets_group_slug with
  | Raise e => Raise e
  | Return secrets_group =>
      if SecretsGroup_bool secrets_group then
        match get_secret_value secrets_group secret_access_type secret_type with
        | Return v => Return (Some v)
        | Raise e => Raise e
        end
      else Return None
  end.

(** [permission_is_exempt] is Nautobot's global exemption predicate. *)
Definition get_secret_by_secret_group_slug
    (permission_is_exempt : string -> bool) (db : Database)
    (user : User.t) (secrets_group_slug secret_type : string)
    (secret_access_type : string) : result (option string) :=
  if User.is_superuser user || permission_is_exempt permission_secrets_group
  then lookup_secret db secrets_group_slug secret_type secret_access_type
  else if negb (User.is_authenticated user)
          || negb (bool_decide
                     (permission_secrets_group ∈ User.get_all_permissions user))
  then Return (Some (no_permission_message secrets_group_slug))
  else lookup_secret db secrets_group_slug secret_type secret_access_type.

(** ** [get_job_filter] *)

Definition FIELDS : list string :=
  [ "platform"; "tenant_group"; "tenant"; "region"; "site"; "role"; "rack";
    "rack_group"; "manufacturer"; "device_type" ].

Module RelatedObject.
(** A directory object picked in the job form. *)
Record t := { pk : pk; slug : string }.
End RelatedObject.

Inductive DeviceSelection :=
| SingleDevice (device : Device.t)
| DeviceQuerySet (devices : list Device.t).

Module JobData.
(** The job's [data] dictionary: querysets under the keys of [FIELDS] and
    under ["tag"], and the value under ["device"]. *)
Record t := {
  selections : gmap string (list RelatedObject.t);
  device : option DeviceSelection
}.
Definition empty : t := {| selections := ∅; device := None |}.
End JobData.

(** [data.get(key)] when it is truthy: a non-empty queryset. *)
Definition data_get (data : JobData.t) (key : string)
  : option (list RelatedObject.t) :=
  match JobData.selections data !! key with
  | Some (o :: os) => Some (o :: os)
  | _ => None
  end.

Definition translate_field (data : JobData.t)
    (query : gmap string (list string)) (field : string)
  : gmap string (list string) :=
  match data_get data field with
  | Some objs => <[field +:+ "_id" := map RelatedObject.pk objs]> query
  | None => query
  end.

Definition translate_tag (data : JobData.t)
    (query : gmap string (list string)) : gmap string (list string) :=
  match data_get data "tag" with
  | Some objs => <["tag" := map RelatedObject.slug objs]> query
  | None => query
  end.

Definition translate_device (data : JobData.t)
    (query : gmap string (list string)) : gmap string (list string) :=
  match JobData.device data with
  | Some (SingleDevice d) => <["id" := [Device.id d]]> query
  | Some (DeviceQuerySet (d :: ds)) => <["id" := map Device.id (d :: ds)]> query
  | _ => query
  end.

Definition build_query (data : JobData.t) : gmap string (list string) :=
  translate_device data
    (translate_tag data (foldl (translate_field data) ∅ FIELDS)).

Definition lower_ascii (c : Ascii.ascii) : Ascii.ascii :=
  let n := Ascii.N_of_ascii c in
  if ((65 <=? n) && (n <=? 90))%N then Ascii.ascii_of_N (n + 32) else c.

Fixpoint lower (s : string) : string :=
  match s with
  | EmptyString => EmptyString
  | String c s' => String (lower_ascii c) (lower s')
  end.

(** The [__iexact] lookup *)
Definition iexact (value pattern : string) : bool :=
  String.eqb (lower value) (lower pattern).

(** [raw_qs] after the scope loop. *)
Definition raw_qs (db : Database) : Q :=
  if existsb
       (fun s => iexact (DynamicGroup.filter (GoldenConfigSetting.dynamic_group s))
                        "{}")
       (GoldenConfigSetting_objects db)
  then Q_empty
  else foldl
         (fun raw obj =>
            Q_or raw (DynamicGroup.generate_query
                        (GoldenConfigSetting.dynamic_group obj)))
         Q_empty (GoldenConfigSetting_objects db).

Definition base_qs (db : Database) : list Device.t :=
  Device_objects_filter db (raw_qs db).

Definition EmptyBaseScope : string :=
  "The base queryset didn't find any devices. Please check the Golden Config Setting scope.".

Definition NoMatchingDevices : string :=
  "The provided job parameters didn't match any devices detected by the Golden Config scope. Please check the scope defined within Golden Config Settings or select the correct job parameters to correctly match devices.".

Definition MissingPlatform (names : list string) : string :=
  "The following device(s) " +:+ String.concat ", " names
    +:+ " have no platform defined. Platform is required.".

Definition platform_isnull (d : Device.t) : bool :=
  match Device.platform d with None => true | Some _ => false end.

(** [DeviceFilterSet] is Nautobot's filter set for devices: the row
    condition it derives from the [query] dictionary.  Its [qs] restricts
    the queryset it is given by that condition. *)
Definition get_job_filter
    (DeviceFilterSet : gmap string (list string) -> Device.t -> bool)
    (db : Database) (data : option JobData.t) : result (list Device.t) :=
  let data := default JobData.empty data in
  let query := build_query data in
  let base_qs := base_qs db in
  match base_qs with
  | [] => Raise (NornirNautobotException EmptyBaseScope)
  | _ :: _ =>
      let devices_filtered := List.filter (DeviceFilterSet query) base_qs in
      match devices_filtered with
      | [] => Raise (NornirNautobotException NoMatchingDevices)
      | _ :: _ =>
          let devices_no_platform :=
            List.filter platform_isnull devices_filtered in
          match devices_no_platform with
          | _ :: _ =>
              Raise (NornirNautobotException
                       (MissingPlatform (map Device.name devices_no_platform)))
          | [] => Return devices_filtered
          end
      end
  end.

(** ** [null_to_empty] *)

(** Python values, as far as their truth value is concerned. *)
Inductive PyValue :=
| PyNone
| PyBool (b : bool)
| PyInt (n : Z)
| PyStr (s : string)
| PyList (items : list PyValue).

(** [bool(val)] *)
Definition truthy (val : PyValue) : bool :=
  match val with
  | PyNone => false
  | PyBool b => b
  | PyInt n => negb (n =? 0)
  | PyStr s => negb (String.eqb s "")
  | PyList items => match items with [] => false | _ :: _ => true end
  end.

Definition null_to_empty (val : PyValue) : PyValue :=
  if negb (truthy val) then PyStr "" else val.

(** ** [render_jinja_template] *)

Definition NL : string := String (Ascii.ascii_of_nat 10) EmptyString.

(** The logger is the list of failures recorded so far, each against an
    object (or [None]).  [log_failure] takes the object and the message. *)
Definition LogEntry : Type := option Device.t * string.

Definition log_failure (logger : list LogEntry) (obj : option Device.t)
    (message : string) : list LogEntry :=
  (logger ++ [(obj, message)])%list.

(** ** [verify_settings] *)

Definition missing_setting (item : string) : string :=
  "Missing the required global setting: `" +:+ item +:+ "`.".

(** [global_settings] is the object's attributes by name; [getattr] on a
    name that is not an attribute raises [AttributeError]. *)
Fixpoint verify_settings (logger : list LogEntry)
    (global_settings : gmap string PyValue) (attrs : list string)
  : list LogEntry * result unit :=
  match attrs with
  | [] => (logger, Return tt)
  | item :: rest =>
      match global_settings !! item with
      | None =>
          (logger,
           Raise (AttributeError ("object has no attribute '" +:+ item +:+ "'")))
      | Some value =>
          if negb (truthy value)
          then (log_failure logger None (missing_setting item),
                Raise (NornirNautobotException ""))
          else verify_settings logger global_settings rest
      end
  end.

Definition UndefinedError_log (template : string) : string :=
  "Jinja encountered and UndefinedError`, check the template for missing variable definitions."
    +:+ NL +:+ "Template:" +:+ NL +:+ template.

Definition SyntaxError_log (lineno : N) (template : string) : string :=
  "Jinja encountered a SyntaxError at line number " +:+ pretty lineno
    +:+ ",check the template for invalid Jinja syntax." +:+ NL
    +:+ "Template:" +:+ NL +:+ template.

(** [render_jinja2] is Nautobot's renderer, called with the context
    [{"obj": obj}].  In the last handler [log_failure] is called with the
    message alone: the call lacks a positional argument, Python raises
    [TypeError] and nothing is recorded. *)
Definition render_jinja_template
    (render_jinja2 : string -> Device.t -> result string)
    (obj : Device.t) (logger : list LogEntry) (template : string)
  : list LogEntry * result string :=
  match render_jinja2 template obj with
  | Return rendered => (logger, Return rendered)
  | Raise (JinjaException (UndefinedError _)) =>
      (log_failure logger (Some obj) (UndefinedError_log template),
       Raise (NornirNautobotException ""))
  | Raise (JinjaException (TemplateSyntaxError lineno _))
  | Raise (JinjaException (TemplateAssertionError lineno _)) =>
      (log_failure logger (Some obj) (SyntaxError_log lineno template),
       Raise (NornirNautobotException ""))
  | Raise (JinjaException (TemplateError _)) =>
      (logger,
       Raise (TypeError "log_failure() missing 1 required positional argument: 'message'"))
  | Raise e => (logger, Raise e)
  end.

(** ** [render_secrets] *)

Module HttpRequest.
Record t := { user : User.t }.
End HttpRequest.

Module GoldenConfig.
Record t := { device : Device.t; intended_config : option string }.
End GoldenConfig.

Module Template.
Record t := { source : string }.
End Template.

(** The variable namespace returned by the GraphQL query. *)
Definition DeviceData : Type := gmap string string.

(** The collaborators of the push pipeline: netutils' filter catalogue (by
    name), the Jinja environment (compiling a string; rendering a template
    with the registered filter names and the bound secret filter), the
    GraphQL executor and Nautobot's exemption predicate. *)
Record Services := {
  jinja2_convenience_function : list string;
  from_string : string -> result Template.t;
  template_render :
    list string -> (string -> string -> string -> result (option string)) ->
    Template.t -> DeviceData -> result string;
  graph_ql_query :
    HttpRequest.t -> Device.t -> string -> result (nat * DeviceData);
  permission_is_exempt : string -> bool
}.

(** Calls that leave [render_secrets]. *)
Inductive Event :=
| FromString (source : string)
| GraphQLQueryCall (device : pk) (query : string)
| TemplateRender (template : Template.t) (device_data : DeviceData).

Definition NoReferenceConfiguration : string :=
  "No reference Intended configuration to render secrets from".

Definition UndefinedError_push (error : string) : string :=
  "Jinja encountered and UndefinedError: " +:+ error
    +:+ ", check the template for missing variable definitions." +:+ NL.

Definition SyntaxError_push (lineno : N) : string :=
  "Jinja encountered a SyntaxError at line number " +:+ pretty lineno
    +:+ ",check the template for invalid Jinja syntax." +:+ NL.

Definition TemplateError_push : string :=
  "Jinja encountered an unexpected TemplateError; check the template for correctness"
    +:+ NL.

Definition TemplateAssertionError_text (tae : string) : string :=
  "Jinja encountered an TemplateAssertionError: '" +:+ tae
    +:+ "'; check the template for correctness".

(** [config_to_push or configs.intended_config] *)
Definition config_to_render (config_to_push : string)
    (configs : GoldenConfig.t) : option string :=
  match config_to_push with
  | EmptyString => GoldenConfig.intended_config configs
  | String _ _ => Some config_to_push
  end.

(** The [try] around [template.render(device_data)]. *)
Definition convert_render_error (r : result string) : result string :=
  match r with
  | Raise (JinjaException (UndefinedError error)) =>
      Raise (RenderConfigToPushError (UndefinedError_push error))
  | Raise (JinjaException (TemplateSyntaxError lineno _))
  | Raise (JinjaException (TemplateAssertionError lineno _)) =>
      Raise (RenderConfigToPushError (SyntaxError_push lineno))
  | Raise (JinjaException (TemplateError _)) =>
      Raise (RenderConfigToPushError TemplateError_push)
  | other => other
  end.

(** The filters registered on the environment: netutils' two encrypt
    helpers and the secret filter. *)
Definition registered_filters (ext : Services) : list string :=
  (List.filter
     (fun name => bool_decide (name ∈ ["encrypt_type5"; "encrypt_type7"]))
     (jinja2_convenience_function ext)
   ++ ["get_secret_by_secret_group_slug"])%list.

(** [partial(get_secret_by_secret_group_slug, request.user)] *)
Definition bound_secret_filter (ext : Services) (db : Database)
    (request : HttpRequest.t)
  : string -> string -> string -> result (option string) :=
  get_secret_by_secret_group_slug (permission_is_exempt ext) db
    (HttpRequest.user request).

Definition render_secrets (ext : Services) (db : Database)
    (config_to_push : string) (configs : GoldenConfig.t)
    (request : HttpRequest.t) : list Event * result string :=
  let device := GoldenConfig.device configs in
  let filters := registered_filters ext in
  let secret_filter := bound_secret_filter ext db request in
  match config_to_render config_to_push configs with
  | None | Some EmptyString =>
      ([], Raise (RenderConfigToPushError NoReferenceConfiguration))
  | Some text =>
      match from_string ext text with
      | Raise (JinjaException (TemplateAssertionError _ tae)) =>
          ([FromString text], Return (TemplateAssertionError_text tae))
      | Raise e => ([FromString text], Raise e)
      | Return template =>
          let queryset := Device_objects_filter_pk db (Device.id device) in
          match get_device_to_settings_map db queryset !! Device.id device with
          | None => ([FromString text], Raise (KeyError (Device.id device)))
          | Some settings =>
              match GoldenConfigSetting.sot_agg_query settings with
              | None =>
                  ([FromString text],
                   Raise (AttributeError "'NoneType' object has no attribute 'query'"))
              | Some sot_agg_query =>
                  let query := GraphQLQuery.query sot_agg_query in
                  match graph_ql_query ext request device query with
                  | Raise e =>
                      ([FromString text; GraphQLQueryCall (Device.id device) query],
                       Raise e)
                  | Return (_, device_data) =>
                      ([FromString text;
                        GraphQLQueryCall (Device.id device) query;
                        TemplateRender template device_data],
                       convert_render_error
                         (template_render ext filters secret_filter
                                          template device_data))
                  end
              end
          end
      end
  end.

(** ** [get_config_to_push] *)

Module Callable.
(** A post-processing function: its [__name__] and its behaviour when
    called with [(config_to_push, configs, request)]. *)
Record t := {
  __name__ : string;
  call : string -> GoldenConfig.t -> HttpRequest.t -> result string
}.
End Callable.

Module PluginConfig.
(** The two recognised keys of [PLUGIN_CFG]; [None] when the key is not
    set. *)
Record t := {
  config_push_callable : option (list Callable.t);
  config_push_subscribed : option (list string)
}.
End PluginConfig.

(** One call of a registered function: its position in
    [config_push_callable] and the [config_to_push] it received. *)
Record Invocation := { stage : nat; current_output : string }.

Inductive Flow :=
| Continue (config_to_push : string)
| Returned (value : string)
| Raised (error : exn).

Definition push_error (error : string) : string :=
  "Find an error rendering the configuration to push: " +:+ error.

(** The inner loop, [for func in config_push_callable], from position
    [idx] on. *)
Fixpoint run_callables (configs : GoldenConfig.t) (request : HttpRequest.t)
    (func_name : string) (idx : nat) (funcs : list Callable.t)
    (config_to_push : string) : list Invocation * Flow :=
  match funcs with
  | [] => ([], Continue config_to_push)
  | func :: rest =>
      if String.eqb (Callable.__name__ func) func_name then
        let inv := {| stage := idx; current_output := config_to_push |} in
        match Callable.call func config_to_push configs request with
        | Return out =>
            let (trace, flow) :=
              run_callables configs request func_name (S idx) rest out in
            (inv :: trace, flow)
        | Raise (RenderConfigToPushError error) =>
            ([inv], Returned (push_error error))
        | Raise e => ([inv], Raised e)
        end
      else run_callables configs request func_name (S idx) rest config_to_push
  end.

(** The outer loop, [for func_name in config_push_subscribed]. *)
Fixpoint run_subscribed (configs : GoldenConfig.t) (request : HttpRequest.t)
    (config_push_callable : list Callable.t)
    (config_push_subscribed : list string) (config_to_push : string)
  : list Invocation * result string :=
  match config_push_subscribed with
  | [] => ([], Return config_to_push)
  | func_name :: rest =>
      match run_callables configs request func_name 0
                          config_push_callable config_to_push with
      | (trace, Continue out) =>
          let (trace', r) :=
            run_subscribed configs request config_push_callable rest out in
          ((trace ++ trace')%list, r)
      | (trace, Returned value) => (trace, Return value)
      | (trace, Raised e) => (trace, Raise e)
      end
  end.

Definition render_secrets_callable (ext : Services) (db : Database)
  : Callable.t :=
  {| Callable.__name__ := "render_secrets";
     Callable.call := fun config_to_push configs request =>
       snd (render_secrets ext db config_to_push configs request) |}.

Definition subscribed (PLUGIN_CFG : PluginConfig.t)
    (custom_subscribed : option (list string)) : list string :=
  match custom_subscribed with
  | Some (n :: ns) => n :: ns
  | _ =>
      match PluginConfig.config_push_subscribed PLUGIN_CFG with
      | Some (n :: ns) => n :: ns
      | _ => ["render_secrets"]
      end
  end.

Definition callables (ext : Services) (db : Database)
    (PLUGIN_CFG : PluginConfig.t) : list Callable.t :=
  render_secrets_callable ext db
    :: default [] (PluginConfig.config_push_callable PLUGIN_CFG).

Definition get_config_to_push (ext : Services) (db : Database)
    (PLUGIN_CFG : PluginConfig.t) (configs : GoldenConfig.t)
    (request : HttpRequest.t) (custom_subscribed : option (list string))
  : list Invocation * result string :=
  run_subscribed configs request (callables ext db PLUGIN_CFG)
                 (subscribed PLUGIN_CFG custom_subscribed) "".

(** ** Notions used in the statements *)

(** [g] is a group of [device] with the settings object [s] attached. *)
Definition qualifying (db : Database) (device : Device.t)
    (g : DynamicGroup.t) (s : GoldenConfigSetting.t) : Prop :=
  g ∈ dynamic_groups db device ∧ golden_config_setting db g = Some s.

(** The first row dominates the whole list. *)
Definition first_is_heaviest
  (rows : list (DynamicGroup.t * GoldenConfigSetting.t)) : Prop :=
  match rows with
  | [] => True
  | r :: _ => ∀ row, row ∈ rows → joined_weight row <= joined_weight r
  end.

(** What one device contributes to the map. *)
Definition settings_of (db : Database) (device : Device.t)
  : option GoldenConfigSetting.t :=
  snd <$> head (order_by_weight_desc
                  (exclude_golden_config_setting_isnull db
                     (dynamic_groups db device))).

(** The scope in the words of the specification: the devices selected by
    the evaluated filter of at least one of the given settings' groups. *)
Definition union_of_group_filters (settings : list GoldenConfigSetting.t)
    (devices : list Device.t) : list Device.t :=
  List.filter
    (fun d =>
       existsb
         (fun s => Q_matches (DynamicGroup.generate_query
                                (GoldenConfigSetting.dynamic_group s)) d)
         settings)
    devices.

(** The settings whose group generates a non-empty query. *)
Definition contributing (db : Database) : list GoldenConfigSetting.t :=
  List.filter
    (fun s => Q_bool (DynamicGroup.generate_query
                        (GoldenConfigSetting.dynamic_group s)))
    (GoldenConfigSetting_objects db).

(** The base scope in words: every device when some configured group has
    the filter "{}" or when no configured group generates a non-empty
    query, and otherwise the devices selected by the evaluated filter of
    at least one of the configured groups that generate one. *)
Definition scope_in_words (db : Database) : list Device.t :=
  if existsb
       (fun s => iexact (DynamicGroup.filter (GoldenConfigSetting.dynamic_group s))
                        "{}")
       (GoldenConfigSetting_objects db)
  then Device_objects db
  else match contributing db with
       | [] => Device_objects db
       | _ :: _ => union_of_group_filters (contributing db) (Device_objects db)
       end.

(** [needle in haystack] *)
Fixpoint contains (needle haystack : string) : bool :=
  String.prefix needle haystack
  || match haystack with
     | EmptyString => false
     | String _ rest => contains needle rest
     end.

(** The registered functions that a name selects, with their positions
    from [idx] on, in registration order. *)
Fixpoint matching (func_name : string) (idx : nat) (funcs : list Callable.t)
  : list (nat * Callable.t) :=
  match funcs with
  | [] => []
  | func :: rest =>
      if String.eqb (Callable.__name__ func) func_name
      then (idx, func) :: matching func_name (S idx) rest
      else matching func_name (S idx) rest
  end.

(** [chained configs request input plan trace output]: the trace calls the
    functions of the plan one after the other, the first on [input], each
    next one on what the one before returned, the last returning
    [output]. *)
Inductive chained (configs : GoldenConfig.t) (request : HttpRequest.t)
  : string -> list (nat * Callable.t) -> list Invocation -> string -> Prop :=
| chained_nil input : chained configs request input [] [] input
| chained_cons input idx func out plan trace output :
    Callable.call func input configs request = Return out ->
    chained configs request out plan trace output ->
    chained configs request input ((idx, func) :: plan)
            ({| stage := idx; current_output := input |} :: trace) output.

(** ** A small directory used to run the helpers *)

Module Sample.
Definition router : Device.t :=
  {| Device.id := "d1"; Device.name := "router1";
     Device.platform := Some "ios" |}.

Definition switch : Device.t :=
  {| Device.id := "d2"; Device.name := "switch2";
     Device.platform := None |}.

Definition in_site_ams (d : Device.t) : bool := String.eqb (Device.id d) "d1".

Definition group5 : DynamicGroup.t :=
  {| DynamicGroup.pk := "g5"; DynamicGroup.filter := "{'site': ['ams']}";
     DynamicGroup.generate_query := Q_lookup in_site_ams |}.

Definition group10 : DynamicGroup.t :=
  {| DynamicGroup.pk := "g10"; DynamicGroup.filter := "{'role': ['edge']}";
     DynamicGroup.generate_query := Q_lookup in_site_ams |}.

Definition query : GraphQLQuery.t :=
  {| GraphQLQuery.query := "query ($device_id: ID!) { device(id: $device_id) { name } }" |}.

Definition setting5 : GoldenConfigSetting.t :=
  {| GoldenConfigSetting.pk := "s5"; GoldenConfigSetting.weight := 5;
     GoldenConfigSetting.dynamic_group := group5;
     GoldenConfigSetting.sot_agg_query := Some query |}.

Definition setting10 : GoldenConfigSetting.t :=
  {| GoldenConfigSetting.pk := "s10"; GoldenConfigSetting.weight := 10;
     GoldenConfigSetting.dynamic_group := group10;
     GoldenConfigSetting.sot_agg_query := Some query |}.

Definition sg1 : SecretsGroup.t :=
  {| SecretsGroup.slug := "sg1";
     SecretsGroup.secrets := [("Generic", "secret", Return "supersecretvalue")] |}.

Definition db : Database :=
  {| Device_objects := [router; switch];
     DynamicGroup_objects := [group5; group10];
     GoldenConfigSetting_objects := [setting5; setting10];
     SecretsGroup_objects := [sg1] |}.

Definition admin : User.t :=
  {| User.is_superuser := true; User.is_authenticated := true;
     User.get_all_permissions := [] |}.

Definition user_2 : User.t :=
  {| User.is_superuser := false; User.is_authenticated := true;
     User.get_all_permissions := [] |}.

Definition user_2_granted : User.t :=
  {| User.is_superuser := false; User.is_authenticated := true;
     User.get_all_permissions := ["extras.view_secretsgroup"] |}.

Definition not_exempt (permission : string) : bool := false.

Definition request : HttpRequest.t := {| HttpRequest.user := user_2 |}.

Definition configs : GoldenConfig.t :=
  {| GoldenConfig.device := router;
     GoldenConfig.intended_config := Some "hostname {{ hostname }}" |}.

Definition no_configs : GoldenConfig.t :=
  {| GoldenConfig.device := router;
     GoldenConfig.intended_config := None |}.

(** A toy engine: compiling always succeeds and rendering marks the
    text; [failing] makes rendering raise the given error instead. *)
Definition services : Services :=
  {| jinja2_convenience_function :=
       ["encrypt_type5"; "encrypt_type7"; "ip_addition"];
     from_string := fun s => Return {| Template.source := s |};
     template_render := fun _ _ t _ =>
       Return (Template.source t +:+ " rendered");
     graph_ql_query := fun _ _ _ => Return (200%nat, ∅);
     permission_is_exempt := not_exempt |}.

Definition failing (error : jinja_error) : Services :=
  {| jinja2_convenience_function := jinja2_convenience_function services;
     from_string := from_string services;
     template_render := fun _ _ _ _ => Raise (JinjaException error);
     graph_ql_query := graph_ql_query services;
     permission_is_exempt := not_exempt |}.

(** A directory without any settings object. *)
Definition unconfigured : Database :=
  {| Device_objects := [router];
     DynamicGroup_objects := [group5];
     GoldenConfigSetting_objects := [];
     SecretsGroup_objects := [] |}.

(** [render_secrets] listed once more under [config_push_callable]. *)
Definition twice : PluginConfig.t :=
  {| PluginConfig.config_push_callable :=
       Some [render_secrets_callable services db];
     PluginConfig.config_push_subscribed := None |}.

Definition defaults : PluginConfig.t :=
  {| PluginConfig.config_push_callable := None;
     PluginConfig.config_push_subscribed := None |}.

Definition undefined_hostname : jinja_error :=
  UndefinedError "'hostname' is undefined".

Definition render_jinja2_undefined (template : string) (obj : Device.t)
  : result string := Raise (JinjaException undefined_hostname).

(** A directory whose only settings object has the scope "{}". *)
Definition everything : DynamicGroup.t :=
  {| DynamicGroup.pk := "g0"; DynamicGroup.filter := "{}";
     DynamicGroup.generate_query := Q_empty |}.

Definition setting0 : GoldenConfigSetting.t :=
  {| GoldenConfigSetting.pk := "s0"; GoldenConfigSetting.weight := 1000;
     GoldenConfigSetting.dynamic_group := everything;
     GoldenConfigSetting.sot_agg_query := Some query |}.

Definition open_scope : Database :=
  {| Device_objects := [router; switch];
     DynamicGroup_objects := [everything];
     GoldenConfigSetting_objects := [setting0];
     SecretsGroup_objects := [sg1] |}.

Definition any_device (query : gmap string (list string)) (d : Device.t)
  : bool := true.

Definition anonymous : User.t :=
  {| User.is_superuser := false; User.is_authenticated := false;
     User.get_all_permissions := [] |}.

Definition all_exempt (permission : string) : bool := true.

Definition render_jinja2_plain (template : string) (obj : Device.t)
  : result string := Return template.

Definition render_jinja2_syntax (template : string) (obj : Device.t)
  : result string :=
  Raise (JinjaException
           (TemplateSyntaxError
              1 "Expected an expression, got 'end of statement block'")).

(** Engines whose compilation step raises. *)
Definition uncompilable (e : exn) : Services :=
  {| jinja2_convenience_function := jinja2_convenience_function services;
     from_string := fun _ => Raise e;
     template_render := template_render services;
     graph_ql_query := graph_ql_query services;
     permission_is_exempt := not_exempt |}.

(** An executor that is down. *)
Definition unreachable : Services :=
  {| jinja2_convenience_function := jinja2_convenience_function services;
     from_string := from_string services;
     template_render := template_render services;
     graph_ql_query := fun _ _ _ => Raise (TypeError "connection refused");
     permission_is_exempt := not_exempt |}.

Definition switch_configs : GoldenConfig.t :=
  {| GoldenConfig.device := switch;
     GoldenConfig.intended_config := Some "hostname switch2" |}.

(** A banner stage, registered besides [render_secrets]. *)
Definition add_banner : Callable.t :=
  {| Callable.__name__ := "add_banner";
     Callable.call := fun config_to_push _ _ =>
       Return ("! managed by golden config" +:+ config_to_push) |}.

Definition with_banner : PluginConfig.t :=
  {| PluginConfig.config_push_callable := Some [add_banner];
     PluginConfig.config_push_subscribed := None |}.

(** Global settings with a backup path and no intended path. *)
Definition global_settings : gmap string PyValue :=
  <["backup_path_template" := PyStr "{{obj.site.slug}}/{{obj.name}}.cfg"]>
    (<["intended_path_template" := PyStr ""]>
       (<["jinja_repository" := PyNone]> ∅)).

Definition platforms : list RelatedObject.t :=
  [ {| RelatedObject.pk := "p1"; RelatedObject.slug := "ios" |};
    {| RelatedObject.pk := "p2"; RelatedObject.slug := "eos" |} ].

Definition job_data : JobData.t :=
  {| JobData.selections := <["platform" := platforms]> (<["site" := []]> ∅);
     JobData.device := Some (SingleDevice router) |}.
End Sample.

(** * Properties *)

Local Open Scope list_scope.

(** ** Device settings resolver *)


Section order_by.
Implicit Types (row : DynamicGroup.t * GoldenConfigSetting.t).
Implicit Types (rows : list (DynamicGroup.t * GoldenConfigSetting.t)).

Lemma elem_of_insert_by_weight row r rows :
  row ∈ insert_by_weight r rows ↔ row = r ∨ row ∈ rows.
Proof.
  induction rows as [|r0 rows IH]; simpl.
  - rewrite list_elem_of_singleton, elem_of_nil. tauto.
  - destruct (joined_weight r <? joined_weight r0).
    + rewrite !elem_of_cons, IH. tauto.
    + rewrite !elem_of_cons. tauto.
Qed.

Lemma elem_of_order_by_weight_desc row rows :
  row ∈ order_by_weight_desc rows ↔ row ∈ rows.
Proof.
  unfold order_by_weight_desc.
  induction rows as [|r rows IH]; simpl; [done|].
  rewrite elem_of_insert_by_weight, elem_of_cons, IH. tauto.
Qed.


Lemma insert_by_weight_first r rows :
  first_is_heaviest rows → first_is_heaviest (insert_by_weight r rows).
Proof.
  destruct rows as [|r0 rows]; simpl.
  - intros _ row. rewrite list_elem_of_singleton. intros ->. lia.
  - intros Hmax. destruct (Z.ltb_spec (joined_weight r) (joined_weight r0)).
    + intros row. rewrite elem_of_cons, elem_of_insert_by_weight.
      intros [->|[->|Hin]]; [lia|lia|].
      apply Hmax. by right.
    + intros row. rewrite elem_of_cons.
      intros [->|Hin]; [lia|].
      specialize (Hmax _ Hin). lia.
Qed.

Lemma order_by_weight_desc_first rows :
  first_is_heaviest (order_by_weight_desc rows).
Proof.
  unfold order_by_weight_desc.
  induction rows as [|r rows IH]; simpl; [done|].
  by apply insert_by_weight_first.
Qed.

Lemma order_by_weight_desc_head r sorted rows :
  order_by_weight_desc rows = r :: sorted →
  r ∈ rows ∧ ∀ row, row ∈ rows → joined_weight row <= joined_weight r.
Proof.
  intros Heq. split.
  - apply elem_of_order_by_weight_desc. rewrite Heq. by left.
  - intros row Hin. pose proof (order_by_weight_desc_first rows) as Hmax.
    rewrite Heq in Hmax. apply Hmax. rewrite <- Heq.
    by apply elem_of_order_by_weight_desc.
Qed.

Lemma order_by_weight_desc_nil rows :
  order_by_weight_desc rows = [] → rows = [].
Proof.
  destruct rows as [|r rows]; [done|]. intros Heq.
  assert (r ∈ order_by_weight_desc (r :: rows)) as Hin
    by (apply elem_of_order_by_weight_desc; by left).
  rewrite Heq in Hin. by apply elem_of_nil in Hin.
Qed.
End order_by.

Lemma elem_of_exclude_isnull db groups g s :
  (g, s) ∈ exclude_golden_config_setting_isnull db groups
  ↔ g ∈ groups ∧ golden_config_setting db g = Some s.
Proof.
  unfold exclude_golden_config_setting_isnull.
  rewrite list_elem_of_omap. split.
  - intros (g' & Hin & Hg'). destruct (golden_config_setting db g') eqn:E; [|done].
    by simplify_eq.
  - intros [Hin Hs]. exists g. by rewrite Hs.
Qed.


Lemma map_device_settings_of db m device :
  map_device db m device
  = match settings_of db device with
    | Some s => <[Device.id device := s]> m
    | None => m
    end.
Proof.
  unfold map_device, settings_of.
  by destruct (order_by_weight_desc _).
Qed.

Lemma settings_of_Some db device s :
  settings_of db device = Some s →
  ∃ g, qualifying db device g s ∧
       ∀ g' s', qualifying db device g' s' →
                GoldenConfigSetting.weight s' <= GoldenConfigSetting.weight s.
Proof.
  unfold settings_of. intros Heq.
  destruct (order_by_weight_desc _) as [|[g s0] sorted] eqn:E; [done|].
  simpl in Heq. simplify_eq.
  apply order_by_weight_desc_head in E as [Hin Hmax].
  exists g. split; [by apply elem_of_exclude_isnull|].
  intros g' s' Hq. apply (Hmax (g', s')). by apply elem_of_exclude_isnull.
Qed.

Lemma settings_of_None db device :
  settings_of db device = None → ∀ g s, ¬ qualifying db device g s.
Proof.
  unfold settings_of. intros Heq g s Hq.
  destruct (order_by_weight_desc _) eqn:E; [|done].
  apply order_by_weight_desc_nil in E.
  apply elem_of_exclude_isnull in Hq. rewrite E in Hq. by apply elem_of_nil in Hq.
Qed.

Lemma settings_map_lookup_keep db queryset m k o :
  (∀ d, d ∈ queryset → Device.id d = k → settings_of db d = o) →
  m !! k = o →
  foldl (map_device db) m queryset !! k = o.
Proof.
  revert m. induction queryset as [|d0 queryset IH]; intros m Hall Hm; [done|].
  simpl. apply IH.
  - intros d Hd. apply Hall. by right.
  - rewrite map_device_settings_of.
    destruct (settings_of db d0) as [s|] eqn:E; [|done].
    destruct (decide (Device.id d0 = k)) as [Hk|Hk].
    + rewrite <- (Hall d0 (ltac:(by left)) Hk), E, Hk. apply lookup_insert_eq.
    + by rewrite lookup_insert_ne.
Qed.

Lemma settings_map_lookup db queryset m k o :
  (∀ d, d ∈ queryset → Device.id d = k → settings_of db d = o) →
  m !! k = None →
  (∃ d, d ∈ queryset ∧ Device.id d = k) →
  foldl (map_device db) m queryset !! k = o.
Proof.
  revert m. induction queryset as [|d0 queryset IH]; intros m Hall Hm (d & Hd & Hk).
  { by apply elem_of_nil in Hd. }
  simpl. destruct (decide (Device.id d0 = k)) as [Hk0|Hk0].
  - apply settings_map_lookup_keep.
    + intros d' Hd'. apply Hall. by right.
    + rewrite map_device_settings_of.
      rewrite (Hall d0 (ltac:(by left)) Hk0).
      destruct o; [rewrite Hk0; apply lookup_insert_eq|done].
  - apply IH.
    + intros d' Hd'. apply Hall. by right.
    + rewrite map_device_settings_of.
      destruct (settings_of db d0); [by rewrite lookup_insert_ne|done].
    + exists d. split; [|done].
      apply elem_of_cons in Hd as [->|Hd]; [done|done].
Qed.

Lemma get_device_to_settings_map_lookup db queryset device :
  (∀ d1 d2, d1 ∈ queryset → d2 ∈ queryset →
            Device.id d1 = Device.id d2 → d1 = d2) →
  device ∈ queryset →
  get_device_to_settings_map db queryset !! Device.id device
  = settings_of db device.
Proof.
  intros Hpk Hin. unfold get_device_to_settings_map.
  apply settings_map_lookup.
  - intros d Hd Hid. by rewrite (Hpk d device Hd Hin Hid).
  - apply lookup_empty.
  - by exists device.
Qed.

(** C1.  For a queryset whose rows are identified by their primary key
    and a device of it: if some group of the device has a settings object,
    the map sends the device's id to the settings object of one of these
    groups whose weight is the highest among them; with exactly two such
    groups, of weights 5 and 10, it is the settings object of the weight-10
    group; and if no group of the device has a settings object, the
    device's id is not a key of the map. *)
Theorem get_device_to_settings_map_highest_weight
    (db : Database) (queryset : list Device.t) (device : Device.t) :
  (∀ d1 d2, d1 ∈ queryset → d2 ∈ queryset →
            Device.id d1 = Device.id d2 → d1 = d2) →
  device ∈ queryset →
  let result := get_device_to_settings_map db queryset !! Device.id device in
  ((∃ g s, qualifying db device g s) →
     ∃ g s, qualifying db device g s ∧ result = Some s ∧
            ∀ g' s', qualifying db device g' s' →
                     GoldenConfigSetting.weight s'
                     <= GoldenConfigSetting.weight s)
  ∧ (∀ g1 s1 g2 s2,
       qualifying db device g1 s1 → qualifying db device g2 s2 →
       (∀ g s, qualifying db device g s → g = g1 ∨ g = g2) →
       GoldenConfigSetting.weight s1 = 5 →
       GoldenConfigSetting.weight s2 = 10 →
       result = Some s2)
  ∧ ((∀ g s, ¬ qualifying db device g s) → result = None).
Proof.
  intros Hpk Hin result.
  assert (result = settings_of db device) as Hres
    by by apply get_device_to_settings_map_lookup.
  assert ((∃ g s, qualifying db device g s) →
     ∃ g s, qualifying db device g s ∧ result = Some s ∧
            ∀ g' s', qualifying db device g' s' →
                     GoldenConfigSetting.weight s'
                     <= GoldenConfigSetting.weight s) as Hsome.
  { intros (g0 & s0 & Hq0).
    destruct (settings_of db device) as [s|] eqn:E.
    - apply settings_of_Some in E as (g & Hq & Hmax). by exists g, s.
    - by destruct (settings_of_None _ _ E _ _ Hq0). }
  split; [done|]. split.
  - intros g1 s1 g2 s2 Hq1 Hq2 Honly Hw1 Hw2.
    destruct Hsome as (g & s & Hq & Hs & Hmax); [by exists g1, s1|].
    pose proof (Hmax _ _ Hq2) as Hle.
    destruct (Honly _ _ Hq) as [->| ->].
    + destruct Hq as [_ Hg], Hq1 as [_ Hg1]. rewrite Hg in Hg1.
      simplify_eq. lia.
    + destruct Hq as [_ Hg], Hq2 as [_ Hg2]. rewrite Hg in Hg2.
      by simplify_eq.
  - intros Hnone. rewrite Hres.
    destruct (settings_of db device) as [s|] eqn:E; [|done].
    apply settings_of_Some in E as (g & Hq & _). by destruct (Hnone _ _ Hq).
Qed.

Lemma get_device_to_settings_map_highest_weight_witness :
  get_device_to_settings_map Sample.db [Sample.router] !! "d1"
  = Some Sample.setting10.
Proof.
  pose proof (get_device_to_settings_map_highest_weight
                Sample.db [Sample.router] Sample.router) as H.
  destruct H as (_ & H & _).
  - intros d1 d2 H1%list_elem_of_singleton H2%list_elem_of_singleton _.
    congruence.
  - by apply list_elem_of_singleton.
  - apply (H Sample.group5 Sample.setting5 Sample.group10 Sample.setting10).
    + split; [|reflexivity]. simpl. apply elem_of_cons. by left.
    + split; [|reflexivity]. simpl. apply elem_of_cons. right.
      by apply list_elem_of_singleton.
    + intros g s [Hg _]. simpl in Hg.
      apply elem_of_cons in Hg as [Hg|Hg]; [by left|].
      apply list_elem_of_singleton in Hg. by right.
    + reflexivity.
    + reflexivity.
Defined.

(** ** Permission-gated secret resolver *)

(** C2.  A principal that is not a superuser, in a context that is not
    exempt, who is unauthenticated or lacks [extras.view_secretsgroup],
    gets the denial string naming the slug as a normal return value; for a
    superuser the gate is bypassed whatever the permissions held, and the
    call is the secret lookup. *)
Theorem get_secret_by_secret_group_slug_gate
    (permission_is_exempt : string -> bool) (db : Database) (user : User.t)
    (secrets_group_slug secret_type secret_access_type : string) :
  let outcome :=
    get_secret_by_secret_group_slug permission_is_exempt db user
      secrets_group_slug secret_type secret_access_type in
  (User.is_superuser user = false →
   permission_is_exempt "extras.view_secretsgroup" = false →
   User.is_authenticated user = false
   ∨ "extras.view_secretsgroup" ∉ User.get_all_permissions user →
   outcome
   = Return (Some ("You have no permission to read this secret "
                     +:+ secrets_group_slug +:+ ".")))
  ∧ (User.is_superuser user = true →
     outcome
     = lookup_secret db secrets_group_slug secret_type secret_access_type).
Proof.
  unfold get_secret_by_secret_group_slug. simpl. split.
  - intros -> Hexempt Hdenied.
    unfold permission_secrets_group. rewrite Hexempt. simpl.
    destruct Hdenied as [-> | Hperm]; [done|].
    rewrite bool_decide_eq_false_2 by done.
    by rewrite orb_true_r.
  - by intros ->.
Qed.

Lemma get_secret_by_secret_group_slug_gate_witness :
  get_secret_by_secret_group_slug Sample.not_exempt Sample.db Sample.user_2
    "sg1" "secret" TYPE_GENERIC
  = Return (Some "You have no permission to read this secret sg1.")
  ∧ get_secret_by_secret_group_slug Sample.not_exempt Sample.db Sample.admin
      "sg1" "secret" TYPE_GENERIC
    = Return (Some "supersecretvalue").
Proof.
  split.
  - apply (get_secret_by_secret_group_slug_gate
             Sample.not_exempt Sample.db Sample.user_2 "sg1" "secret"
             TYPE_GENERIC).
    + reflexivity.
    + reflexivity.
    + right. simpl. apply not_elem_of_nil.
  - transitivity (lookup_secret Sample.db "sg1" "secret" TYPE_GENERIC).
    + apply (get_secret_by_secret_group_slug_gate
               Sample.not_exempt Sample.db Sample.admin "sg1" "secret"
               TYPE_GENERIC).
      reflexivity.
    + reflexivity.
Defined.

(** C10.  A call that passes the gate raises what the lookup of the
    secrets group or the secret store raises, or returns the store's
    value; and no call at all returns [None]. *)
Theorem get_secret_by_secret_group_slug_never_None
    (permission_is_exempt : string -> bool) (db : Database) (user : User.t)
    (secrets_group_slug secret_type secret_access_type : string) :
  let outcome :=
    get_secret_by_secret_group_slug permission_is_exempt db user
      secrets_group_slug secret_type secret_access_type in
  (User.is_superuser user = true
   ∨ permission_is_exempt "extras.view_secretsgroup" = true
   ∨ (User.is_authenticated user = true
      ∧ "extras.view_secretsgroup" ∈ User.get_all_permissions user) →
   outcome
   = match SecretsGroup_objects_get db secrets_group_slug with
     | Raise e => Raise e
     | Return secrets_group =>
         match get_secret_value secrets_group secret_access_type secret_type
         with
         | Return value => Return (Some value)
         | Raise e => Raise e
         end
     end)
  ∧ outcome ≠ Return None.
Proof.
  simpl.
  assert (∀ slug st at_,
            lookup_secret db slug st at_
            = match SecretsGroup_objects_get db slug with
              | Raise e => Raise e
              | Return secrets_group =>
                  match get_secret_value secrets_group at_ st with
                  | Return value => Return (Some value)
                  | Raise e => Raise e
                  end
              end) as Hlookup.
  { intros. unfold lookup_secret.
    by destruct (SecretsGroup_objects_get db slug). }
  assert (lookup_secret db secrets_group_slug secret_type secret_access_type
          ≠ Return None) as Hnot_None.
  { rewrite Hlookup. destruct (SecretsGroup_objects_get _ _); [|done].
    by destruct (get_secret_value _ _ _). }
  unfold get_secret_by_secret_group_slug, permission_secrets_group. split.
  - intros [-> | [-> | [-> Hperm]]].
    + by rewrite Hlookup.
    + by rewrite orb_true_r, Hlookup.
    + rewrite bool_decide_eq_true_2 by done. simpl.
      rewrite Hlookup. by destruct (_ || _).
  - destruct (_ || _); [done|]. by destruct (_ || _).
Qed.

Lemma get_secret_by_secret_group_slug_never_None_witness :
  get_secret_by_secret_group_slug Sample.not_exempt Sample.db
    Sample.user_2_granted "sg1" "secret" TYPE_GENERIC
  = Return (Some "supersecretvalue").
Proof.
  pose proof (get_secret_by_secret_group_slug_never_None
                Sample.not_exempt Sample.db Sample.user_2_granted
                "sg1" "secret" TYPE_GENERIC) as [H _].
  rewrite H; [reflexivity|].
  right. right. split; [reflexivity|].
  simpl. by apply list_elem_of_singleton.
Defined.

(** ** Scope query builder *)

Lemma filter_all {A} (f : A → bool) (l : list A) :
  (∀ x, f x = true) → List.filter f l = l.
Proof.
  intros Hf. induction l as [|x l IH]; simpl; [done|]. by rewrite Hf, IH.
Qed.

Lemma filter_all_elem {A} (f : A → bool) (l : list A) :
  (∀ x, x ∈ l → f x = true) → List.filter f l = l.
Proof.
  induction l as [|x l IH]; simpl; [done|]. intros Hf.
  rewrite (Hf x) by by left. f_equal. apply IH. intros y Hy. apply Hf. by right.
Qed.

Lemma existsb_false_iff {A} (f : A → bool) (l : list A) :
  existsb f l = false ↔ ∀ x, x ∈ l → f x = false.
Proof.
  induction l as [|x l IH]; simpl.
  - split; [|done]. intros _ x Hx. by apply elem_of_nil in Hx.
  - rewrite orb_false_iff, IH. split.
    + intros [Hx Hl] y [->|Hy]%elem_of_cons; auto.
    + intros H. split; [apply H; by left|]. intros y Hy. apply H. by right.
Qed.

Section scope_loop.
Local Notation gq s :=
  (DynamicGroup.generate_query (GoldenConfigSetting.dynamic_group s))
  (only parsing).
Local Notation loop raw settings :=
  (foldl (fun raw' obj => Q_or raw' (gq obj)) raw settings) (only parsing).
Local Notation nonempty settings :=
  (List.filter (fun s => Q_bool (gq s)) settings) (only parsing).

Lemma scope_loop_from_nonempty raw settings :
  Q_bool raw = true →
  Q_bool (loop raw settings) = true
  ∧ ∀ d, Q_matches (loop raw settings) d
         = Q_matches raw d
           || existsb (fun s => Q_matches (gq s) d) (nonempty settings).
Proof.
  revert raw. induction settings as [|s settings IH]; intros raw Hraw; simpl.
  - split; [done|]. intros d. by rewrite orb_false_r.
  - unfold Q_or. destruct (Q_bool (gq s)) eqn:Hs; simpl.
    + rewrite Hraw. simpl.
      destruct (IH (Q_OR raw (gq s)) eq_refl) as [Hb Hm].
      split; [done|]. intros d. rewrite Hm. simpl. by rewrite orb_assoc.
    + by apply IH.
Qed.

Lemma scope_loop_from_empty settings :
  match nonempty settings with
  | [] => loop Q_empty settings = Q_empty
  | _ :: _ =>
      ∀ d, Q_matches (loop Q_empty settings) d
           = existsb (fun s => Q_matches (gq s) d) (nonempty settings)
  end.
Proof.
  induction settings as [|s settings IH]; simpl; [done|].
  unfold Q_or. destruct (Q_bool (gq s)) eqn:Hs; simpl.
  - intros d.
    destruct (scope_loop_from_nonempty (gq s) settings Hs) as [_ Hm].
    apply Hm.
  - apply IH.
Qed.
End scope_loop.

(** C3, amended.  When some configured settings object's group has the
    filter "{}", the base scope is the whole device table.  Otherwise it is
    the union of the evaluated filters of the configured groups whose
    generated query is not empty, and the whole device table when there is
    no such group (so also when nothing is configured); when at least one
    settings object is configured and every group's query is non-empty, it
    is the union of every configured group's evaluated filter. *)
Theorem base_scope (db : Database) :
  let settings := GoldenConfigSetting_objects db in
  let trivial s :=
    iexact (DynamicGroup.filter (GoldenConfigSetting.dynamic_group s)) "{}" in
  ((∃ s, s ∈ settings ∧ trivial s = true) → base_qs db = Device_objects db)
  ∧ ((∀ s, s ∈ settings → trivial s = false) →
     base_qs db
     = match contributing db with
       | [] => Device_objects db
       | _ :: _ => union_of_group_filters (contributing db) (Device_objects db)
       end)
  ∧ ((∀ s, s ∈ settings → trivial s = false) →
     settings ≠ [] →
     (∀ s, s ∈ settings →
           Q_bool (DynamicGroup.generate_query
                     (GoldenConfigSetting.dynamic_group s)) = true) →
     base_qs db = union_of_group_filters settings (Device_objects db)).
Proof.
  intros settings trivial.
  assert ((∀ s, s ∈ settings → trivial s = false) →
     base_qs db
     = match contributing db with
       | [] => Device_objects db
       | _ :: _ => union_of_group_filters (contributing db) (Device_objects db)
       end) as Hunion.
  { intros Hnone%existsb_false_iff.
    unfold base_qs, raw_qs, Device_objects_filter.
    fold settings. unfold trivial in Hnone. rewrite Hnone.
    pose proof (scope_loop_from_empty settings) as Hloop. simpl in Hloop.
    unfold contributing. fold settings.
    destruct (List.filter _ settings) as [|s0 rest] eqn:E.
    - rewrite Hloop. by apply filter_all.
    - unfold union_of_group_filters. apply List.filter_ext. intros d.
      apply Hloop. }
  split; [|split; [done|]].
  - intros (s & Hin & Hs).
    unfold base_qs, raw_qs, Device_objects_filter. fold settings.
    destruct (existsb _ settings) eqn:E; [by apply filter_all|].
    rewrite existsb_false_iff in E. specialize (E s Hin).
    unfold trivial in Hs. congruence.
  - intros Hnone Hsome Hall. rewrite (Hunion Hnone).
    unfold contributing. fold settings.
    rewrite filter_all_elem.
    + destruct settings; [done|done].
    + done.
Qed.

Lemma base_scope_witness :
  base_qs Sample.db
  = union_of_group_filters (GoldenConfigSetting_objects Sample.db)
                           (Device_objects Sample.db).
Proof.
  apply (base_scope Sample.db).
  - intros s [->|Hs]%elem_of_cons; [reflexivity|].
    apply list_elem_of_singleton in Hs as ->. reflexivity.
  - simpl. discriminate.
  - intros s [->|Hs]%elem_of_cons; [reflexivity|].
    apply list_elem_of_singleton in Hs as ->. reflexivity.
Defined.

(** C3 as stated fails when no settings object is configured: no group
    has the filter "{}", the union of no filter selects no device, and the
    base scope is the whole device table. *)
Lemma base_scope_union_counterexample :
  ¬ ((∀ s, s ∈ GoldenConfigSetting_objects Sample.unconfigured →
           iexact (DynamicGroup.filter (GoldenConfigSetting.dynamic_group s))
                  "{}" = false) →
     base_qs Sample.unconfigured
     = union_of_group_filters (GoldenConfigSetting_objects Sample.unconfigured)
                              (Device_objects Sample.unconfigured)).
Proof.
  intros H.
  assert (base_qs Sample.unconfigured = []) as Hbase.
  { apply H. intros s Hs. simpl in Hs. by apply elem_of_nil in Hs. }
  vm_compute in Hbase. discriminate Hbase.
Qed.

Lemma MissingPlatform_not_EmptyBaseScope names :
  MissingPlatform names ≠ EmptyBaseScope.
Proof. unfold MissingPlatform, EmptyBaseScope. simpl. discriminate. Qed.

Lemma MissingPlatform_not_NoMatchingDevices names :
  MissingPlatform names ≠ NoMatchingDevices.
Proof. unfold MissingPlatform, NoMatchingDevices. simpl. discriminate. Qed.

Lemma EmptyBaseScope_not_NoMatchingDevices :
  EmptyBaseScope ≠ NoMatchingDevices.
Proof. unfold EmptyBaseScope, NoMatchingDevices. discriminate. Qed.

Lemma get_job_filter_cases
    (DeviceFilterSet : gmap string (list string) -> Device.t -> bool)
    (db : Database) (data : option JobData.t) :
  let base := base_qs db in
  let matched :=
    List.filter (DeviceFilterSet (build_query (default JobData.empty data)))
                base in
  let no_platform := List.filter platform_isnull matched in
  get_job_filter DeviceFilterSet db data
  = match base with
    | [] => Raise (NornirNautobotException EmptyBaseScope)
    | _ :: _ =>
        match matched with
        | [] => Raise (NornirNautobotException NoMatchingDevices)
        | _ :: _ =>
            match no_platform with
            | _ :: _ =>
                Raise (NornirNautobotException
                         (MissingPlatform (map Device.name no_platform)))
            | [] => Return matched
            end
        end
    end.
Proof.
  simpl. unfold get_job_filter.
  destruct (base_qs db); [done|]. by destruct (List.filter _ _).
Qed.

(** The checks of [get_job_filter] relative to [base_qs].  With [base]
    the queryset [base_qs], [matched] the devices of it that satisfy the
    job parameters and [no_platform] those of [matched] without a
    platform: each of the three failures and the normal return is
    characterised, and the three messages are pairwise different. *)
Theorem get_job_filter_failures
    (DeviceFilterSet : gmap string (list string) -> Device.t -> bool)
    (db : Database) (data : option JobData.t) :
  let base := base_qs db in
  let matched :=
    List.filter (DeviceFilterSet (build_query (default JobData.empty data)))
                base in
  let no_platform := List.filter platform_isnull matched in
  let outcome := get_job_filter DeviceFilterSet db data in
  (outcome = Raise (NornirNautobotException EmptyBaseScope) ↔ base = [])
  ∧ (outcome = Raise (NornirNautobotException NoMatchingDevices)
     ↔ base ≠ [] ∧ matched = [])
  ∧ ((∃ names, outcome = Raise (NornirNautobotException (MissingPlatform names)))
     ↔ base ≠ [] ∧ matched ≠ [] ∧ no_platform ≠ [])
  ∧ (base ≠ [] ∧ matched ≠ [] ∧ no_platform ≠ [] →
     outcome
     = Raise (NornirNautobotException
                (MissingPlatform (map Device.name no_platform))))
  ∧ (∀ d, d ∈ no_platform ↔ d ∈ matched ∧ Device.platform d = None)
  ∧ (∀ d, d ∈ matched ↔
          d ∈ base
          ∧ DeviceFilterSet (build_query (default JobData.empty data)) d = true)
  ∧ (∀ devices, outcome = Return devices
                ↔ base ≠ [] ∧ matched ≠ [] ∧ no_platform = []
                  ∧ devices = matched)
  ∧ EmptyBaseScope ≠ NoMatchingDevices
  ∧ (∀ names, MissingPlatform names ≠ EmptyBaseScope
              ∧ MissingPlatform names ≠ NoMatchingDevices).
Proof.
  intros base matched no_platform outcome.
  pose proof EmptyBaseScope_not_NoMatchingDevices as Hen.
  pose proof MissingPlatform_not_EmptyBaseScope as Hme.
  pose proof MissingPlatform_not_NoMatchingDevices as Hmn.
  assert (∀ d, d ∈ no_platform ↔ d ∈ matched ∧ Device.platform d = None) as Hnp.
  { intros d. unfold no_platform. rewrite list_elem_of_In, List.filter_In.
    rewrite <- list_elem_of_In. unfold platform_isnull.
    destruct (Device.platform d); naive_solver. }
  assert (∀ d, d ∈ matched ↔
          d ∈ base
          ∧ DeviceFilterSet (build_query (default JobData.empty data)) d = true)
    as Hm.
  { intros d. unfold matched. rewrite list_elem_of_In, List.filter_In.
    by rewrite <- list_elem_of_In. }
  subst outcome. rewrite get_job_filter_cases.
  fold base. fold matched. fold no_platform.
  split_and!; try done; try (intros names; split; done).
  all: destruct base; [|destruct matched; [|destruct no_platform]];
    try (split; [intros [names ?]|]); naive_solver.
Qed.

Lemma get_job_filter_failures_witness :
  get_job_filter Sample.any_device Sample.open_scope None
  = Raise (NornirNautobotException
             "The following device(s) switch2 have no platform defined. Platform is required.").
Proof.
  pose proof (get_job_filter_failures Sample.any_device Sample.open_scope None)
    as (_ & _ & _ & H & _).
  apply H. split_and!; discriminate.
Defined.

Lemma base_qs_in_words (db : Database) : base_qs db = scope_in_words db.
Proof.
  unfold base_qs, raw_qs, scope_in_words, Device_objects_filter.
  destruct (existsb _ _); [by apply filter_all|].
  pose proof (scope_loop_from_empty (GoldenConfigSetting_objects db)) as Hloop.
  simpl in Hloop. unfold contributing.
  destruct (List.filter _ (GoldenConfigSetting_objects db)) as [|s0 rest] eqn:E.
  - rewrite Hloop. by apply filter_all.
  - unfold union_of_group_filters. apply List.filter_ext. intros d.
    apply Hloop.
Qed.

(** C4 as stated fails: with no settings object configured the union of
    the configured groups' filters selects no device, and yet, a device
    being in the directory, the builder does not fail with the
    empty-base-scope message. *)
Lemma get_job_filter_failure_order_counterexample :
  ¬ (get_job_filter Sample.any_device Sample.unconfigured None
     = Raise (NornirNautobotException EmptyBaseScope)
     ↔ union_of_group_filters (GoldenConfigSetting_objects Sample.unconfigured)
                              (Device_objects Sample.unconfigured)
       = []).
Proof.
  intros [_ H]. specialize (H eq_refl). vm_compute in H. discriminate H.
Qed.

(** C4, amended.  Let [base] be the base scope: every device when some
    configured group has the filter "{}" or when no configured group
    generates a non-empty query (so also when nothing is configured), and
    otherwise the union of the evaluated filters of the configured groups
    that generate one.  With [matched] the devices of [base] that satisfy
    the job parameters and [no_platform] those of [matched] without a
    platform: the builder fails with the empty-base-scope message exactly
    when [base] is empty; with the no-matching-devices message exactly when
    [base] is not empty and [matched] is; with the missing-platform message
    exactly when both are non-empty and [no_platform] is non-empty, the
    message then listing the names of exactly the devices of
    [no_platform]; and it returns exactly when none of these holds, the
    result being [matched].  The three messages are pairwise different. *)
Theorem get_job_filter_failure_order
    (DeviceFilterSet : gmap string (list string) -> Device.t -> bool)
    (db : Database) (data : option JobData.t) :
  let base := scope_in_words db in
  let matched :=
    List.filter (DeviceFilterSet (build_query (default JobData.empty data)))
                base in
  let no_platform := List.filter platform_isnull matched in
  let outcome := get_job_filter DeviceFilterSet db data in
  (outcome = Raise (NornirNautobotException EmptyBaseScope) ↔ base = [])
  ∧ (outcome = Raise (NornirNautobotException NoMatchingDevices)
     ↔ base ≠ [] ∧ matched = [])
  ∧ ((∃ names, outcome = Raise (NornirNautobotException (MissingPlatform names)))
     ↔ base ≠ [] ∧ matched ≠ [] ∧ no_platform ≠ [])
  ∧ (base ≠ [] ∧ matched ≠ [] ∧ no_platform ≠ [] →
     outcome
     = Raise (NornirNautobotException
                (MissingPlatform (map Device.name no_platform))))
  ∧ (∀ d, d ∈ no_platform ↔ d ∈ matched ∧ Device.platform d = None)
  ∧ (∀ d, d ∈ matched ↔
          d ∈ base
          ∧ DeviceFilterSet (build_query (default JobData.empty data)) d = true)
  ∧ (∀ devices, outcome = Return devices
                ↔ base ≠ [] ∧ matched ≠ [] ∧ no_platform = []
                  ∧ devices = matched)
  ∧ EmptyBaseScope ≠ NoMatchingDevices
  ∧ (∀ names, MissingPlatform names ≠ EmptyBaseScope
              ∧ MissingPlatform names ≠ NoMatchingDevices).
Proof.
  pose proof (get_job_filter_failures DeviceFilterSet db data) as H.
  cbn zeta in H. rewrite base_qs_in_words in H. exact H.
Qed.

Lemma get_job_filter_failure_order_witness :
  get_job_filter Sample.any_device Sample.open_scope None
  = Raise (NornirNautobotException
             "The following device(s) switch2 have no platform defined. Platform is required.").
Proof.
  pose proof (get_job_filter_failure_order Sample.any_device Sample.open_scope
                                           None)
    as (_ & _ & _ & H & _).
  apply H. split_and!; discriminate.
Defined.

(** C5 as stated fails: with no settings object configured and a device
    in the directory, the builder does not raise the empty-base-scope
    failure (here it returns the device). *)
Lemma get_job_filter_unconfigured_counterexample :
  ¬ (GoldenConfigSetting_objects Sample.unconfigured = [] →
     get_job_filter Sample.any_device Sample.unconfigured None
     = Raise (NornirNautobotException EmptyBaseScope)).
Proof.
  intros H. specialize (H eq_refl). vm_compute in H. discriminate H.
Qed.

(** C5, amended.  When no settings object is configured the base scope is
    the whole device table, and the builder raises the empty-base-scope
    failure exactly when the directory holds no device. *)
Theorem get_job_filter_unconfigured
    (DeviceFilterSet : gmap string (list string) -> Device.t -> bool)
    (db : Database) (data : option JobData.t) :
  GoldenConfigSetting_objects db = [] →
  base_qs db = Device_objects db
  ∧ (get_job_filter DeviceFilterSet db data
     = Raise (NornirNautobotException EmptyBaseScope)
     ↔ Device_objects db = []).
Proof.
  intros Hnone.
  assert (base_qs db = Device_objects db) as Hbase.
  { unfold base_qs, raw_qs, Device_objects_filter. rewrite Hnone. simpl.
    by apply filter_all. }
  split; [done|].
  rewrite get_job_filter_cases. simpl. rewrite Hbase.
  destruct (Device_objects db); [done|].
  split; [|done]. destruct (List.filter _ _); [done|].
  by destruct (List.filter _ _).
Qed.

Lemma get_job_filter_unconfigured_witness :
  base_qs Sample.unconfigured = Device_objects Sample.unconfigured
  ∧ (get_job_filter Sample.any_device Sample.unconfigured None
     = Raise (NornirNautobotException EmptyBaseScope)
     ↔ Device_objects Sample.unconfigured = []).
Proof.
  apply (get_job_filter_unconfigured Sample.any_device Sample.unconfigured None).
  reflexivity.
Defined.

(** ** Push-artifact pipeline *)

Section pipeline.
Context (configs : GoldenConfig.t) (request : HttpRequest.t).
Context (registered : list Callable.t).

(** The call recorded by [inv] raised [RenderConfigToPushError error]. *)
Local Notation raised_at inv error :=
  (∃ func, registered !! stage inv = Some func
           ∧ Callable.call func (current_output inv) configs request
             = Raise (RenderConfigToPushError error)) (only parsing).

(** The call recorded by [inv] returned. *)
Local Notation returned_at inv :=
  (∀ func, registered !! stage inv = Some func →
           ∃ out, Callable.call func (current_output inv) configs request
                  = Return out) (only parsing).

Lemma drop_step idx (func : Callable.t) rest :
  drop idx registered = func :: rest →
  registered !! idx = Some func ∧ drop (S idx) registered = rest.
Proof.
  intros Hdrop.
  assert (registered !! idx = Some func) as Hlook.
  { rewrite <- (Nat.add_0_r idx), <- lookup_drop, Hdrop. done. }
  split; [done|].
  rewrite (drop_S _ _ _ Hlook) in Hdrop. by simplify_eq.
Qed.

Lemma run_callables_error func_name funcs idx cur flow
      before inv after error :
  drop idx registered = funcs →
  run_callables configs request func_name idx funcs cur
  = (before ++ inv :: after, flow) →
  raised_at inv error →
  after = [] ∧ flow = Returned (push_error error).
Proof.
  revert idx cur before.
  induction funcs as [|func rest IH];
    intros idx cur before Hdrop Hrun Hraised; simpl in Hrun.
  { injection Hrun as Htrace _. by destruct before. }
  apply drop_step in Hdrop as [Hlook Hdrop].
  destruct (String.eqb _ _); [|by eapply IH].
  destruct (Callable.call func cur configs request) as [out|e] eqn:Hcall.
  - destruct (run_callables _ _ _ _ rest out) as [trace' flow'] eqn:Hrest.
    injection Hrun as Htrace ->.
    destruct before as [|inv0 before]; simpl in Htrace.
    + injection Htrace as <- _.
      destruct Hraised as (f & Hf & Hc). simpl in Hf, Hc. congruence.
    + injection Htrace as _ ->. by eapply IH.
  - assert (before ++ inv :: after
            = [{| stage := idx; current_output := cur |}]
            ∧ (∀ err, e = RenderConfigToPushError err →
                      flow = Returned (push_error err))) as [Htrace Hflow].
    { destruct e; injection Hrun as <- <-; split; try done.
      by intros err [= ->]. }
    destruct before as [|? [|? ?]]; simpl in Htrace; [|done|done].
    injection Htrace as -> ->.
    destruct Hraised as (f & Hf & Hc). simpl in Hf, Hc.
    rewrite Hlook in Hf. injection Hf as <-. rewrite Hcall in Hc.
    injection Hc as ->. split; [done|]. by apply Hflow.
Qed.

Lemma run_callables_not_raised func_name funcs idx cur trace error :
  run_callables configs request func_name idx funcs cur
  ≠ (trace, Raised (RenderConfigToPushError error)).
Proof.
  revert idx cur trace.
  induction funcs as [|func rest IH]; intros idx cur trace; simpl; [done|].
  destruct (String.eqb _ _); [|apply IH].
  destruct (Callable.call func cur configs request) as [out|e].
  - destruct (run_callables _ _ _ _ rest out) as [trace' flow'] eqn:Hrest.
    intros ?; simplify_eq. by eapply IH.
  - by destruct e.
Qed.

Lemma run_subscribed_error names cur outcome before inv after error :
  run_subscribed configs request registered names cur
  = (before ++ inv :: after, outcome) →
  raised_at inv error →
  after = [] ∧ outcome = Return (push_error error).
Proof.
  revert cur before.
  induction names as [|func_name names IH];
    intros cur before Hrun Hraised; simpl in Hrun.
  { injection Hrun as Htrace _. by destruct before. }
  destruct (run_callables _ _ _ _ _ cur) as [trace1 flow] eqn:Hinner.
  destruct flow as [out|value|e].
  - destruct (run_subscribed _ _ _ names out) as [trace2 outcome2] eqn:Hrest.
    injection Hrun as Htrace ->.
    apply app_eq_inv in Htrace as [(k & -> & Hk)|(k & -> & Hk)].
    + destruct k as [|inv' k]; simpl in Hk.
      * subst trace2. by eapply (IH _ []).
      * injection Hk as -> ->.
        by destruct (run_callables_error _ _ _ _ _ _ _ _ _
                       eq_refl Hinner Hraised).
    + subst trace2. by eapply IH.
  - injection Hrun as -> <-.
    destruct (run_callables_error _ _ _ _ _ _ _ _ _
                eq_refl Hinner Hraised) as [-> Hflow].
    by injection Hflow as ->.
  - injection Hrun as -> <-.
    by destruct (run_callables_error _ _ _ _ _ _ _ _ _
                   eq_refl Hinner Hraised).
Qed.

Lemma run_subscribed_not_raised names cur trace error :
  run_subscribed configs request registered names cur
  ≠ (trace, Raise (RenderConfigToPushError error)).
Proof.
  revert cur trace.
  induction names as [|func_name names IH]; intros cur trace; simpl; [done|].
  destruct (run_callables _ _ _ _ _ cur) as [trace1 flow] eqn:Hinner.
  destruct flow as [out|value|e].
  - destruct (run_subscribed _ _ _ names out) as [trace2 outcome2] eqn:Hrest.
    intros ?; simplify_eq. by eapply IH.
  - done.
  - intros ?; simplify_eq. by eapply run_callables_not_raised.
Qed.

Lemma chained_app input plan1 trace1 mid plan2 trace2 output :
  chained configs request input plan1 trace1 mid →
  chained configs request mid plan2 trace2 output →
  chained configs request input (plan1 ++ plan2) (trace1 ++ trace2) output.
Proof.
  induction 1 as [|? ? ? ? ? ? ? Hcall _ IH]; intros H2; simpl; [done|].
  econstructor; [done|]. by apply IH.
Qed.

Lemma run_callables_chained func_name funcs idx cur trace flow :
  drop idx registered = funcs →
  run_callables configs request func_name idx funcs cur = (trace, flow) →
  (∀ inv, inv ∈ trace → returned_at inv) →
  ∃ out, flow = Continue out
         ∧ chained configs request cur (matching func_name idx funcs)
                   trace out.
Proof.
  revert idx cur trace.
  induction funcs as [|func rest IH];
    intros idx cur trace Hdrop Hrun Hret; simpl in *.
  { simplify_eq. eexists. split; [done|]. constructor. }
  apply drop_step in Hdrop as [Hlook Hdrop].
  destruct (String.eqb _ _); [|by eapply IH].
  destruct (Callable.call func cur configs request) as [out|e] eqn:Hcall.
  - destruct (run_callables _ _ _ _ rest out) as [trace' flow'] eqn:Hrest.
    simplify_eq.
    destruct (IH (S idx) out trace' eq_refl Hrest) as (final & -> & Hch).
    { intros inv Hin. apply Hret. by right. }
    exists final. split; [done|]. by econstructor.
  - assert (trace = [{| stage := idx; current_output := cur |}]) as ->
      by (destruct e; by simplify_eq).
    destruct (Hret {| stage := idx; current_output := cur |}
                   ltac:(by left) func Hlook) as [out Hout].
    simpl in Hout. congruence.
Qed.

Lemma run_subscribed_chained names cur trace outcome :
  run_subscribed configs request registered names cur = (trace, outcome) →
  (∀ inv, inv ∈ trace → returned_at inv) →
  ∃ final,
    outcome = Return final
    ∧ chained configs request cur
              (flat_map (fun n => matching n 0 registered) names)
              trace final.
Proof.
  revert cur trace.
  induction names as [|func_name names IH];
    intros cur trace Hrun Hret; simpl in *.
  { simplify_eq. eexists. split; [done|]. constructor. }
  destruct (run_callables _ _ _ _ _ cur) as [trace1 flow] eqn:Hinner.
  assert (∀ trace2, trace = trace1 ++ trace2 →
            ∃ out, flow = Continue out
                   ∧ chained configs request cur
                             (matching func_name 0 registered) trace1 out)
    as Hfirst.
  { intros trace2 ->.
    apply (run_callables_chained _ _ 0 _ _ _ eq_refl Hinner).
    intros inv Hin. apply Hret. apply elem_of_app. by left. }
  destruct flow as [out|value|e].
  - destruct (run_subscribed _ _ _ names out) as [trace2 outcome2] eqn:Hrest.
    simplify_eq.
    destruct (Hfirst trace2 eq_refl) as (out' & ? & Hch1). simplify_eq.
    destruct (IH out' trace2 Hrest) as (final & -> & Hch2).
    { intros inv Hin. apply Hret. apply elem_of_app. by right. }
    exists final. split; [done|]. by eapply chained_app.
  - simplify_eq.
    destruct (Hfirst [] (eq_sym (app_nil_r _))) as (? & ? & _). done.
  - simplify_eq.
    destruct (Hfirst [] (eq_sym (app_nil_r _))) as (? & ? & _). done.
Qed.
End pipeline.

Lemma elem_of_matching func_name funcs idx i func :
  (i, func) ∈ matching func_name idx funcs
  ↔ ∃ j, i = (idx + j)%nat ∧ funcs !! j = Some func
         ∧ Callable.__name__ func = func_name.
Proof.
  revert idx. induction funcs as [|f rest IH]; intros idx; simpl.
  - rewrite elem_of_nil. split; [done|]. by intros (j & _ & ? & _).
  - destruct (String.eqb_spec (Callable.__name__ f) func_name) as [Hn|Hn].
    + rewrite elem_of_cons, IH. split.
      * intros [?|(j & -> & Hj & Hname)]; simplify_eq.
        -- exists 0%nat. by rewrite Nat.add_0_r.
        -- exists (S j). split; [lia|done].
      * intros ([|j] & -> & Hj & Hname); simpl in Hj.
        -- left. rewrite Nat.add_0_r. by simplify_eq.
        -- right. exists j. split; [lia|done].
    + rewrite IH. split.
      * intros (j & -> & Hj & Hname). exists (S j). split; [lia|done].
      * intros ([|j] & -> & Hj & Hname); simpl in Hj.
        -- by simplify_eq.
        -- exists j. split; [lia|done].
Qed.

Lemma run_callables_skip configs request func_name idx funcs cur :
  (∀ func, func ∈ funcs → Callable.__name__ func ≠ func_name) →
  run_callables configs request func_name idx funcs cur = ([], Continue cur)
  ∧ matching func_name idx funcs = [].
Proof.
  revert idx. induction funcs as [|func rest IH]; intros idx Hnone; [done|].
  simpl. destruct (String.eqb_spec (Callable.__name__ func) func_name) as [E|_].
  - destruct (Hnone func); [by left|done].
  - apply IH. intros f Hf. apply Hnone. by right.
Qed.

Lemma run_subscribed_skip configs request registered func_name
      before after cur :
  (∀ func, func ∈ registered → Callable.__name__ func ≠ func_name) →
  run_subscribed configs request registered (before ++ func_name :: after) cur
  = run_subscribed configs request registered (before ++ after) cur.
Proof.
  intros Hnone. revert cur.
  induction before as [|n before IH]; intros cur; simpl.
  - destruct (run_callables_skip configs request func_name 0 registered cur
                Hnone) as [-> _].
    by destruct (run_subscribed _ _ _ after cur).
  - destruct (run_callables _ _ n _ _ cur) as [trace [out| |]]; [|done|done].
    by rewrite IH.
Qed.

(** C6.  [get_config_to_push] never raises [RenderConfigToPushError]; and
    when a call recorded in its trace raised [RenderConfigToPushError]
    with message [error], that call is the last one made and the pipeline
    returns the text "Find an error rendering the configuration to push: "
    followed by [error]. *)
Theorem get_config_to_push_stops_on_error
    (ext : Services) (db : Database) (PLUGIN_CFG : PluginConfig.t)
    (configs : GoldenConfig.t) (request : HttpRequest.t)
    (custom_subscribed : option (list string)) :
  let registered := callables ext db PLUGIN_CFG in
  let run :=
    get_config_to_push ext db PLUGIN_CFG configs request custom_subscribed in
  (∀ error, snd run ≠ Raise (RenderConfigToPushError error))
  ∧ (∀ before inv after func error,
       fst run = before ++ inv :: after →
       registered !! stage inv = Some func →
       Callable.call func (current_output inv) configs request
       = Raise (RenderConfigToPushError error) →
       after = []
       ∧ snd run
         = Return ("Find an error rendering the configuration to push: "
                     +:+ error)).
Proof.
  intros registered run. split.
  - intros error Hraise. subst run. unfold get_config_to_push in Hraise.
    destruct (run_subscribed _ _ _ _ _) as [trace outcome] eqn:Hrun.
    simpl in Hraise. subst outcome.
    by eapply run_subscribed_not_raised.
  - intros before inv after func error Htrace Hfunc Hcall.
    subst run. unfold get_config_to_push in *.
    destruct (run_subscribed _ _ _ _ _) as [trace outcome] eqn:Hrun.
    simpl in *. subst trace.
    eapply run_subscribed_error; [done|]. by exists func.
Qed.

Lemma get_config_to_push_stops_on_error_witness :
  snd (get_config_to_push Sample.services Sample.db Sample.defaults
                          Sample.no_configs Sample.request None)
  = Return "Find an error rendering the configuration to push: No reference Intended configuration to render secrets from".
Proof.
  pose proof (get_config_to_push_stops_on_error
                Sample.services Sample.db Sample.defaults Sample.no_configs
                Sample.request None) as [_ H].
  destruct (H [] {| stage := 0; current_output := "" |} []
              (render_secrets_callable Sample.services Sample.db)
              NoReferenceConfiguration) as [_ Hout].
  - reflexivity.
  - reflexivity.
  - reflexivity.
  - exact Hout.
Defined.

(** C7 as stated fails when a name is registered more than once: with
    [render_secrets] listed again under [config_push_callable], the default
    name list makes the pipeline call position 0 and then position 1, the
    second on the output of the first. *)
Lemma get_config_to_push_first_match_counterexample :
  get_config_to_push Sample.services Sample.db Sample.twice Sample.configs
                     Sample.request None
  = ([{| stage := 0; current_output := "" |};
      {| stage := 1; current_output := "hostname {{ hostname }} rendered" |}],
     Return "hostname {{ hostname }} rendered rendered")
  ∧ get_config_to_push Sample.services Sample.db Sample.twice Sample.configs
                       Sample.request None
    ≠ ([{| stage := 0; current_output := "" |}],
       Return "hostname {{ hostname }} rendered").
Proof.
  assert (get_config_to_push Sample.services Sample.db Sample.twice
            Sample.configs Sample.request None
          = ([{| stage := 0; current_output := "" |};
              {| stage := 1;
                 current_output := "hostname {{ hostname }} rendered" |}],
             Return "hostname {{ hostname }} rendered rendered")) as H
    by (vm_compute; reflexivity).
  split; [exact H|]. rewrite H. discriminate.
Qed.

(** C7, amended.  A name selects every registered function of that name,
    in registration order, and none when no registered function has it.
    When every call made returns, the pipeline calls, name after name, the
    functions each name selects, the first call on the empty string and
    each next call on what the call before returned, and returns what the
    last call returned.  A name that no registered function has triggers
    no call and leaves the output as it was. *)
Theorem get_config_to_push_chain
    (ext : Services) (db : Database) (PLUGIN_CFG : PluginConfig.t)
    (configs : GoldenConfig.t) (request : HttpRequest.t)
    (custom_subscribed : option (list string)) :
  let registered := callables ext db PLUGIN_CFG in
  let names := subscribed PLUGIN_CFG custom_subscribed in
  let run :=
    get_config_to_push ext db PLUGIN_CFG configs request custom_subscribed in
  (∀ n i func, (i, func) ∈ matching n 0 registered
               ↔ registered !! i = Some func ∧ Callable.__name__ func = n)
  ∧ ((∀ inv func, inv ∈ fst run → registered !! stage inv = Some func →
        ∃ out, Callable.call func (current_output inv) configs request
               = Return out) →
     ∃ final,
       snd run = Return final
       ∧ chained configs request ""
                 (flat_map (fun n => matching n 0 registered) names)
                 (fst run) final)
  ∧ (∀ n, (∀ func, func ∈ registered → Callable.__name__ func ≠ n) →
          matching n 0 registered = []
          ∧ (∀ before after cur,
               run_subscribed configs request registered
                              (before ++ n :: after) cur
               = run_subscribed configs request registered
                                (before ++ after) cur)
          ∧ (custom_subscribed = Some [n] → run = ([], Return ""))).
Proof.
  intros registered names run. split_and!.
  - intros n i func. rewrite elem_of_matching. split.
    + by intros (j & -> & Hj & Hn).
    + intros [Hi Hn]. by exists i.
  - intros Hret. subst run. unfold get_config_to_push in *.
    destruct (run_subscribed _ _ _ _ _) as [trace outcome] eqn:Hrun.
    cbn [fst snd] in *. eapply run_subscribed_chained; [exact Hrun|].
    intros inv Hin func Hfunc. by eapply Hret.
  - intros n Hnone. split_and!.
    + by apply run_callables_skip.
    + intros. by apply run_subscribed_skip.
    + intros ->. subst run. unfold get_config_to_push.
      change (subscribed PLUGIN_CFG (Some [n])) with [n].
      fold registered. cbn [run_subscribed].
      by destruct (run_callables_skip configs request n 0 registered ""
                     Hnone) as [-> _].
Qed.

Lemma get_config_to_push_chain_witness :
  ∃ final,
    snd (get_config_to_push Sample.services Sample.db Sample.twice
                            Sample.configs Sample.request None)
    = Return final
    ∧ chained Sample.configs Sample.request ""
        (flat_map
           (fun n => matching n 0 (callables Sample.services Sample.db
                                             Sample.twice))
           (subscribed Sample.twice None))
        (fst (get_config_to_push Sample.services Sample.db Sample.twice
                                 Sample.configs Sample.request None))
        final.
Proof.
  pose proof (get_config_to_push_chain
                Sample.services Sample.db Sample.twice Sample.configs
                Sample.request None) as (_ & H & _).
  apply H. intros inv func Hin.
  change (fst (get_config_to_push Sample.services Sample.db Sample.twice
                 Sample.configs Sample.request None))
    with [{| stage := 0; current_output := "" |};
          {| stage := 1;
             current_output := "hostname {{ hostname }} rendered" |}] in Hin.
  apply elem_of_cons in Hin as [->|Hin].
  - intros [= <-]. eexists. reflexivity.
  - apply list_elem_of_singleton in Hin as ->.
    intros [= <-]. eexists. reflexivity.
Defined.

(** ** Rendering *)

Lemma append_assoc (a b c : string) : (a +:+ b) +:+ c = a +:+ (b +:+ c).
Proof.
  induction a as [|x a IH]; [done|].
  change (String x ((a +:+ b) +:+ c) = String x (a +:+ (b +:+ c))).
  f_equal. exact IH.
Qed.

Lemma render_secrets_starts_with_compile ext db config_to_push configs request
      text :
  config_to_render config_to_push configs = Some text →
  text ≠ "" →
  ∃ rest, fst (render_secrets ext db config_to_push configs request)
          = FromString text :: rest.
Proof.
  intros Htext Hne. unfold render_secrets. rewrite Htext.
  destruct text as [|c text]; [done|].
  repeat case_match; simpl; eauto.
Qed.

(** C8.  Called with an empty [config_to_push], [render_secrets] renders
    the stored intended configuration: the run is the one it makes when
    given that text, and the text it compiles is the intended
    configuration.  A non-empty [config_to_push] is the text compiled.
    When [config_to_push] is empty and the intended configuration is
    missing or empty, it raises before any external call is made. *)
Theorem render_secrets_fallback
    (ext : Services) (db : Database) (configs : GoldenConfig.t)
    (request : HttpRequest.t) :
  (∀ intended,
     GoldenConfig.intended_config configs = Some intended →
     intended ≠ "" →
     render_secrets ext db "" configs request
     = render_secrets ext db intended configs request
     ∧ ∃ rest, fst (render_secrets ext db "" configs request)
               = FromString intended :: rest)
  ∧ (∀ config_to_push,
       config_to_push ≠ "" →
       ∃ rest, fst (render_secrets ext db config_to_push configs request)
               = FromString config_to_push :: rest)
  ∧ (GoldenConfig.intended_config configs = None
     ∨ GoldenConfig.intended_config configs = Some "" →
     render_secrets ext db "" configs request
     = ([], Raise (RenderConfigToPushError
                     "No reference Intended configuration to render secrets from"))).
Proof.
  split_and!.
  - intros intended Hint Hne. split.
    + unfold render_secrets.
      replace (config_to_render intended configs) with (Some intended)
        by by destruct intended.
      simpl. by rewrite Hint.
    + by apply render_secrets_starts_with_compile.
  - intros config_to_push Hne.
    apply render_secrets_starts_with_compile; [|done].
    by destruct config_to_push.
  - intros [Hint|Hint]; unfold render_secrets; simpl; by rewrite Hint.
Qed.

Lemma render_secrets_fallback_witness :
  (render_secrets Sample.services Sample.db "" Sample.configs Sample.request
   = render_secrets Sample.services Sample.db "hostname {{ hostname }}"
                    Sample.configs Sample.request
   ∧ ∃ rest, fst (render_secrets Sample.services Sample.db "" Sample.configs
                                 Sample.request)
             = FromString "hostname {{ hostname }}" :: rest)
  ∧ render_secrets Sample.services Sample.db "" Sample.no_configs
                   Sample.request
    = ([], Raise (RenderConfigToPushError
                    "No reference Intended configuration to render secrets from")).
Proof.
  split.
  - apply (render_secrets_fallback Sample.services Sample.db Sample.configs
                                   Sample.request).
    + reflexivity.
    + discriminate.
  - apply (render_secrets_fallback Sample.services Sample.db Sample.no_configs
                                   Sample.request).
    left. reflexivity.
Defined.

(** C9 as stated fails: a generic template error raised while rendering is
    converted to a [RenderConfigToPushError] whose message is a fixed text,
    which does not carry the original message. *)
Lemma template_errors_counterexample :
  ¬ ∃ message,
      snd (render_secrets (Sample.failing (TemplateError "boom")) Sample.db ""
                          Sample.configs Sample.request)
      = Raise (RenderConfigToPushError message)
      ∧ contains "boom" message = true.
Proof.
  intros (message & Hraise & Hcarried).
  vm_compute in Hraise. injection Hraise as <-.
  vm_compute in Hcarried. discriminate Hcarried.
Qed.

(** C9, amended.  In [render_jinja_template], an undefined-variable error
    and a syntax error are recorded with the logger against the device
    being processed, with a message that ends with the template, and
    [NornirNautobotException] is raised.  In [render_secrets], each of the
    three classes of template error raised while rendering is converted to
    [RenderConfigToPushError]: the message carries the original message for
    an undefined-variable error, the line number for a syntax error, and is
    a fixed text for any other template error. *)
Theorem template_errors_reported
    (render_jinja2 : string -> Device.t -> result string)
    (obj : Device.t) (logger : list LogEntry) (template_code : string)
    (ext : Services) (db : Database) (config_to_push : string)
    (configs : GoldenConfig.t) (request : HttpRequest.t)
    (error : jinja_error) :
  (render_jinja2 template_code obj = Raise (JinjaException error) →
   (∀ message, error ≠ TemplateError message) →
   ∃ text,
     render_jinja_template render_jinja2 obj logger template_code
     = (logger ++ [(Some obj, text +:+ template_code)],
        Raise (NornirNautobotException "")))
  ∧ (∀ text template settings sot_agg_query status device_data,
       let device := GoldenConfig.device configs in
       config_to_render config_to_push configs = Some text →
       text ≠ "" →
       from_string ext text = Return template →
       get_device_to_settings_map db
         (Device_objects_filter_pk db (Device.id device)) !! Device.id device
       = Some settings →
       GoldenConfigSetting.sot_agg_query settings = Some sot_agg_query →
       graph_ql_query ext request device (GraphQLQuery.query sot_agg_query)
       = Return (status, device_data) →
       template_render ext (registered_filters ext)
                       (bound_secret_filter ext db request)
                       template device_data
       = Raise (JinjaException error) →
       ∃ message,
         snd (render_secrets ext db config_to_push configs request)
         = Raise (RenderConfigToPushError message)
         ∧ match error with
           | UndefinedError original =>
               ∃ before after, message = before +:+ original +:+ after
           | TemplateSyntaxError lineno _
           | TemplateAssertionError lineno _ =>
               ∃ before after, message = before +:+ pretty lineno +:+ after
           | TemplateError _ =>
               message
               = "Jinja encountered an unexpected TemplateError; check the template for correctness"
                   +:+ NL
           end).
Proof.
  split.
  - intros Hraise Hclass. unfold render_jinja_template. rewrite Hraise.
    destruct error as [m|n m|n m|m].
    + exists ("Jinja encountered and UndefinedError`, check the template for missing variable definitions."
                +:+ NL +:+ "Template:" +:+ NL).
      unfold log_failure, UndefinedError_log. by rewrite !append_assoc.
    + exists ("Jinja encountered a SyntaxError at line number " +:+ pretty n
                +:+ ",check the template for invalid Jinja syntax." +:+ NL
                +:+ "Template:" +:+ NL).
      unfold log_failure, SyntaxError_log. by rewrite !append_assoc.
    + exists ("Jinja encountered a SyntaxError at line number " +:+ pretty n
                +:+ ",check the template for invalid Jinja syntax." +:+ NL
                +:+ "Template:" +:+ NL).
      unfold log_failure, SyntaxError_log. by rewrite !append_assoc.
    + by destruct (Hclass m).
  - intros text template settings sot status device_data device
           Htext Hne Hcompile Hsettings Hsot Hquery Hrender.
    unfold render_secrets. fold device. rewrite Htext.
    destruct text as [|c text]; [done|].
    rewrite Hcompile, Hsettings, Hsot, Hquery. cbn [snd].
    rewrite Hrender.
    destruct error as [m|n m|n m|m]; simpl; eexists; (split; [reflexivity|]).
    + unfold UndefinedError_push. by eexists _, _.
    + unfold SyntaxError_push. by eexists _, _.
    + unfold SyntaxError_push. by eexists _, _.
    + reflexivity.
Qed.

Lemma template_errors_reported_witness :
  (∃ text,
     render_jinja_template Sample.render_jinja2_undefined Sample.router []
                           "hostname {{ hostname }}"
     = ([] ++ [(Some Sample.router, text +:+ "hostname {{ hostname }}")],
        Raise (NornirNautobotException "")))
  ∧ ∃ message,
      snd (render_secrets (Sample.failing Sample.undefined_hostname) Sample.db
                          "" Sample.configs Sample.request)
      = Raise (RenderConfigToPushError message)
      ∧ ∃ before after,
          message = before +:+ "'hostname' is undefined" +:+ after.
Proof.
  pose proof (template_errors_reported
                Sample.render_jinja2_undefined Sample.router []
                "hostname {{ hostname }}"
                (Sample.failing Sample.undefined_hostname) Sample.db ""
                Sample.configs Sample.request Sample.undefined_hostname)
    as [Hlog Hpush].
  split.
  - apply Hlog; [reflexivity|]. intros message. discriminate.
  - apply (Hpush "hostname {{ hostname }}"
                 {| Template.source := "hostname {{ hostname }}" |}
                 Sample.setting10 Sample.query 200%nat ∅).
    + reflexivity.
    + discriminate.
    + reflexivity.
    + vm_compute. reflexivity.
    + reflexivity.
    + reflexivity.
    + reflexivity.
Defined.

(** * Further properties of the helpers *)

(** ** [null_to_empty] *)

(** X1.  [null_to_empty] never returns [None]; its result is the empty
    string or the (truthy) argument itself; it leaves every string as it
    is; it turns every falsy value, not only [None], into the empty string;
    and applying it twice is applying it once. *)
Theorem null_to_empty_normalises (val : PyValue) :
  null_to_empty val ≠ PyNone
  ∧ (null_to_empty val = PyStr ""
     ∨ (truthy val = true ∧ null_to_empty val = val))
  ∧ (∀ s, null_to_empty (PyStr s) = PyStr s)
  ∧ null_to_empty (PyInt 0) = PyStr ""
  ∧ null_to_empty (PyBool false) = PyStr ""
  ∧ null_to_empty (PyList []) = PyStr ""
  ∧ null_to_empty (null_to_empty val) = null_to_empty val.
Proof.
  unfold null_to_empty. split_and!.
  - by destruct val as [|[]| | |[]]; simpl; try destruct (_ =? _);
      try destruct (String.eqb _ _).
  - destruct (truthy val); simpl; auto.
  - intros s. simpl. destruct (String.eqb_spec s ""); simpl; congruence.
  - reflexivity.
  - reflexivity.
  - reflexivity.
  - destruct (truthy val) eqn:E; simpl; [by rewrite E|done].
Qed.

(** ** [verify_settings] *)

Lemma verify_settings_logger logger global_settings attrs :
  verify_settings logger global_settings attrs = (logger, Return tt)
  ∨ snd (verify_settings logger global_settings attrs) ≠ Return tt.
Proof.
  induction attrs as [|item rest IH]; simpl; [by left|].
  destruct (global_settings !! item) as [value|]; [|by right].
  destruct (truthy value); simpl; [done|by right].
Qed.

(** X2.  [verify_settings] returns normally exactly when every required
    attribute exists on the settings object and is truthy, and then
    nothing has been logged. *)
Theorem verify_settings_passes (logger : list LogEntry)
    (global_settings : gmap string PyValue) (attrs : list string) :
  (snd (verify_settings logger global_settings attrs) = Return tt
   ↔ ∀ item, item ∈ attrs →
             ∃ value, global_settings !! item = Some value
                      ∧ truthy value = true)
  ∧ (snd (verify_settings logger global_settings attrs) = Return tt →
     fst (verify_settings logger global_settings attrs) = logger).
Proof.
  split.
  - induction attrs as [|item rest IH]; simpl.
    + split; [|done]. intros _ item Hin. by apply elem_of_nil in Hin.
    + destruct (global_settings !! item) as [value|] eqn:Hitem; simpl.
      * destruct (truthy value) eqn:Htruthy; simpl.
        -- rewrite IH. split.
           ++ intros Hrest item' [->|Hin]%elem_of_cons; eauto.
           ++ intros Hall item' Hin. apply Hall. by right.
        -- split; [done|]. intros Hall.
           destruct (Hall item) as (v & Hv & Ht); [by left|]. congruence.
      * split; [done|]. intros Hall.
        destruct (Hall item) as (v & Hv & _); [by left|]. congruence.
  - intros Hok.
    destruct (verify_settings_logger logger global_settings attrs) as [->|Hne];
      [done|by destruct Hne].
Qed.

Lemma verify_settings_passes_witness :
  fst (verify_settings [] Sample.global_settings ["backup_path_template"]) = [].
Proof.
  apply (verify_settings_passes [] Sample.global_settings
                                ["backup_path_template"]).
  reflexivity.
Defined.

(** X3.  When the attributes before [item] are all set and truthy and
    [item] exists but is falsy, [verify_settings] records exactly one
    failure, against no object, naming [item], and raises
    [NornirNautobotException]; the attributes after [item] are not looked
    at. *)
Theorem verify_settings_first_missing (logger : list LogEntry)
    (global_settings : gmap string PyValue)
    (before : list string) (item : string) (after : list string)
    (value : PyValue) :
  (∀ item', item' ∈ before →
            ∃ value', global_settings !! item' = Some value'
                      ∧ truthy value' = true) →
  global_settings !! item = Some value →
  truthy value = false →
  verify_settings logger global_settings (before ++ item :: after)
  = (logger ++ [(None, "Missing the required global setting: `"
                         +:+ item +:+ "`.")],
     Raise (NornirNautobotException "")).
Proof.
  intros Hbefore Hitem Hfalsy.
  induction before as [|item' before IH]; simpl.
  - by rewrite Hitem, Hfalsy.
  - destruct (Hbefore item') as (value' & -> & ->); [by left|]. simpl.
    apply IH. intros item'' Hin. apply Hbefore. by right.
Qed.

Lemma verify_settings_first_missing_witness :
  verify_settings [] Sample.global_settings
    ["backup_path_template"; "intended_path_template"; "jinja_repository"]
  = ([(None, "Missing the required global setting: `intended_path_template`.")],
     Raise (NornirNautobotException "")).
Proof.
  apply (verify_settings_first_missing [] Sample.global_settings
           ["backup_path_template"] "intended_path_template"
           ["jinja_repository"] (PyStr "")).
  - intros item' Hin. apply list_elem_of_singleton in Hin as ->.
    eexists. split; reflexivity.
  - reflexivity.
  - reflexivity.
Defined.

(** ** The query built by [get_job_filter] *)

Lemma translate_field_lookup_ne data query field key :
  key ≠ field +:+ "_id" →
  translate_field data query field !! key = query !! key.
Proof.
  intros Hne. unfold translate_field.
  destruct (data_get data field); [|done]. by rewrite lookup_insert_ne.
Qed.

Lemma translate_field_lookup_eq data query field :
  translate_field data query field !! (field +:+ "_id")
  = match data_get data field with
    | Some objs => Some (map RelatedObject.pk objs)
    | None => query !! (field +:+ "_id")
    end.
Proof.
  unfold translate_field.
  destruct (data_get data field); [|done]. by rewrite lookup_insert_eq.
Qed.

Lemma translate_field_lookup_Some data query field key value :
  translate_field data query field !! key = Some value →
  key = field +:+ "_id" ∨ query !! key = Some value.
Proof.
  destruct (decide (key = field +:+ "_id")) as [->|Hne]; [by left|].
  rewrite translate_field_lookup_ne by done. by right.
Qed.

Lemma translate_tag_lookup data query key :
  translate_tag data query !! key
  = if decide (key = "tag")
    then match data_get data "tag" with
         | Some objs => Some (map RelatedObject.slug objs)
         | None => query !! key
         end
    else query !! key.
Proof.
  unfold translate_tag. destruct (data_get data "tag").
  - case_decide as Hkey; [subst; apply lookup_insert_eq|].
    by rewrite lookup_insert_ne.
  - by case_decide.
Qed.

Lemma translate_device_lookup data query key :
  translate_device data query !! key
  = if decide (key = "id")
    then match JobData.device data with
         | Some (SingleDevice d) => Some [Device.id d]
         | Some (DeviceQuerySet (d :: ds)) => Some (map Device.id (d :: ds))
         | _ => query !! key
         end
    else query !! key.
Proof.
  unfold translate_device.
  destruct (JobData.device data) as [[d|[|d ds]]|]; try by case_decide.
  - case_decide as Hkey; [subst; apply lookup_insert_eq|].
    by rewrite lookup_insert_ne.
  - case_decide as Hkey; [subst; apply lookup_insert_eq|].
    by rewrite lookup_insert_ne.
Qed.

Lemma FIELDS_keys field :
  field ∈ FIELDS → field +:+ "_id" ≠ "tag" ∧ field +:+ "_id" ≠ "id".
Proof.
  unfold FIELDS. rewrite !elem_of_cons, elem_of_nil.
  intros H.
  repeat (destruct H as [->|H]; [split; vm_compute; discriminate|]). done.
Qed.

Lemma fields_loop_lookup data field :
  field ∈ FIELDS →
  foldl (translate_field data) ∅ FIELDS !! (field +:+ "_id")
  = map RelatedObject.pk <$> data_get data field.
Proof.
  unfold FIELDS. rewrite !elem_of_cons, elem_of_nil. cbn [foldl].
  intros H.
  repeat (destruct H as [->|H];
          [repeat (rewrite translate_field_lookup_ne by (vm_compute; discriminate));
           rewrite translate_field_lookup_eq;
           destruct (data_get data _); [done|];
           by repeat (rewrite translate_field_lookup_ne
                        by (vm_compute; discriminate))|]).
  done.
Qed.

(** X4.  In the query that [get_job_filter] builds, each field of
    [FIELDS] for which the job data holds a non-empty selection becomes the
    key [<field>_id] with the primary keys of the selected objects, and a
    field without selection, or with an empty one, gives no key; the key
    [tag] holds the slugs of the selected tags; the key [id] holds the id
    of the single device, or the ids of a non-empty device queryset. *)
Theorem build_query_lookup (data : JobData.t) :
  (∀ field, field ∈ FIELDS →
            build_query data !! (field +:+ "_id")
            = map RelatedObject.pk <$> data_get data field)
  ∧ build_query data !! "tag"
    = map RelatedObject.slug <$> data_get data "tag"
  ∧ build_query data !! "id"
    = match JobData.device data with
      | Some (SingleDevice d) => Some [Device.id d]
      | Some (DeviceQuerySet (d :: ds)) => Some (map Device.id (d :: ds))
      | _ => None
      end.
Proof.
  unfold build_query. split_and!.
  - intros field Hfield. destruct (FIELDS_keys field Hfield) as [Htag Hid].
    rewrite translate_device_lookup, translate_tag_lookup.
    rewrite !decide_False by done. by apply fields_loop_lookup.
  - rewrite translate_device_lookup, translate_tag_lookup.
    rewrite decide_False by discriminate. rewrite decide_True by done.
    destruct (data_get data "tag"); [done|].
    unfold FIELDS. cbn [foldl].
    by repeat (rewrite translate_field_lookup_ne by (vm_compute; discriminate)).
  - rewrite translate_device_lookup. rewrite decide_True by done.
    destruct (JobData.device data) as [[d|[|d ds]]|]; try done.
    all: rewrite translate_tag_lookup; rewrite decide_False by discriminate.
    all: unfold FIELDS; cbn [foldl].
    all: by repeat (rewrite translate_field_lookup_ne by (vm_compute; discriminate)).
Qed.

Lemma build_query_lookup_witness :
  build_query Sample.job_data !! "platform_id" = Some ["p1"; "p2"]
  ∧ build_query Sample.job_data !! "site_id" = None.
Proof.
  pose proof (build_query_lookup Sample.job_data) as [H _].
  split.
  - apply (H "platform"). unfold FIELDS. apply elem_of_cons. by left.
  - apply (H "site"). unfold FIELDS. do 4 (apply elem_of_cons; right).
    apply elem_of_cons. by left.
Defined.

(** X5.  The query that [get_job_filter] builds has no key besides
    [id], [tag] and the keys [<field>_id] of the fields of [FIELDS], and no
    key holds an empty list. *)
Theorem build_query_keys (data : JobData.t) (key : string)
    (values : list string) :
  build_query data !! key = Some values →
  (key = "id" ∨ key = "tag" ∨ ∃ field, field ∈ FIELDS ∧ key = field +:+ "_id")
  ∧ values ≠ [].
Proof.
  unfold build_query. rewrite translate_device_lookup.
  case_decide as Hid.
  { destruct (JobData.device data) as [[d|[|d ds]]|] eqn:Hdev.
    - intros [= <-]. split; [by left|done].
    - subst key. rewrite translate_tag_lookup.
      rewrite decide_False by discriminate.
      unfold FIELDS; cbn [foldl].
      by repeat (rewrite translate_field_lookup_ne by (vm_compute; discriminate)).
    - intros [= <-]. split; [by left|done].
    - subst key. rewrite translate_tag_lookup.
      rewrite decide_False by discriminate.
      unfold FIELDS; cbn [foldl].
      by repeat (rewrite translate_field_lookup_ne by (vm_compute; discriminate)). }
  rewrite translate_tag_lookup. case_decide as Htag.
  { unfold data_get at 1.
    destruct (JobData.selections data !! "tag") as [[|o os]|] eqn:Hsel.
    - subst key. unfold FIELDS; cbn [foldl].
      by repeat (rewrite translate_field_lookup_ne by (vm_compute; discriminate)).
    - intros [= <-]. split; [auto|done].
    - subst key. unfold FIELDS; cbn [foldl].
      by repeat (rewrite translate_field_lookup_ne by (vm_compute; discriminate)). }
  assert (∀ fields query,
            (∀ k v, query !! k = Some v →
                    (∃ field, field ∈ FIELDS ∧ k = field +:+ "_id") ∧ v ≠ []) →
            (∀ field, field ∈ fields → field ∈ FIELDS) →
            foldl (translate_field data) query fields !! key = Some values →
            (∃ field, field ∈ FIELDS ∧ key = field +:+ "_id") ∧ values ≠ [])
    as Hloop.
  { induction fields as [|field fields IH]; intros query Hquery Hsub; simpl.
    - apply Hquery.
    - apply IH.
      + intros k v. unfold translate_field, data_get.
        destruct (JobData.selections data !! field) as [[|o os]|];
          try apply Hquery.
        destruct (decide (k = field +:+ "_id")) as [->|Hne].
        * rewrite lookup_insert_eq. intros [= <-]. split; [|done].
          exists field. split; [|done]. apply Hsub. by left.
        * rewrite lookup_insert_ne by done. apply Hquery.
      + intros f Hf. apply Hsub. by right. }
  intros Hlook. destruct (Hloop FIELDS ∅) as [Hfield Hne]; try done.
  split; [|done]. right. by right.
Qed.

Lemma build_query_keys_witness :
  ("platform_id" = "id" ∨ "platform_id" = "tag"
   ∨ ∃ field, field ∈ FIELDS ∧ "platform_id" = field +:+ "_id")
  ∧ ["p1"; "p2"] ≠ [].
Proof.
  apply (build_query_keys Sample.job_data "platform_id" ["p1"; "p2"]).
  vm_compute. reflexivity.
Defined.

(** ** What [get_job_filter] returns *)

(** X6.  A queryset returned by [get_job_filter] is not empty, and each
    of its devices is a row of the device table that lies in the base
    scope, satisfies the job parameters and has a platform. *)
Theorem get_job_filter_returns
    (DeviceFilterSet : gmap string (list string) -> Device.t -> bool)
    (db : Database) (data : option JobData.t) (devices : list Device.t) :
  get_job_filter DeviceFilterSet db data = Return devices →
  devices ≠ []
  ∧ ∀ d, d ∈ devices →
         d ∈ Device_objects db
         ∧ Q_matches (raw_qs db) d = true
         ∧ DeviceFilterSet (build_query (default JobData.empty data)) d = true
         ∧ ∃ platform, Device.platform d = Some platform.
Proof.
  rewrite get_job_filter_cases. cbn zeta.
  destruct (base_qs db) as [|b base] eqn:Hbase; [done|].
  destruct (List.filter _ (b :: base)) as [|m matched] eqn:Hmatched; [done|].
  destruct (List.filter platform_isnull (m :: matched)) as [|n none] eqn:Hnone;
    [|done].
  intros [= <-]. split; [done|]. intros d Hd.
  assert (d ∈ b :: base ∧ DeviceFilterSet
            (build_query (default JobData.empty data)) d = true) as [Hin HF].
  { rewrite <- Hmatched in Hd.
    apply list_elem_of_In, List.filter_In in Hd as [Hd HF].
    by rewrite <- list_elem_of_In in Hd. }
  rewrite <- Hbase in Hin. unfold base_qs, Device_objects_filter in Hin.
  apply list_elem_of_In, List.filter_In in Hin as [Hin HQ].
  rewrite <- list_elem_of_In in Hin. split_and!; try done.
  destruct (Device.platform d) as [platform|] eqn:Hplatform; [by eexists|].
  assert (d ∈ List.filter platform_isnull (m :: matched)) as Hbad.
  { apply list_elem_of_In, List.filter_In. split.
    - by apply list_elem_of_In.
    - unfold platform_isnull. by rewrite Hplatform. }
  rewrite Hnone in Hbad. by apply elem_of_nil in Hbad.
Qed.

Lemma get_job_filter_returns_witness :
  [Sample.router] ≠ []
  ∧ ∀ d, d ∈ [Sample.router] →
         d ∈ Device_objects Sample.db
         ∧ Q_matches (raw_qs Sample.db) d = true
         ∧ Sample.any_device (build_query (default JobData.empty None)) d = true
         ∧ ∃ platform, Device.platform d = Some platform.
Proof.
  apply (get_job_filter_returns Sample.any_device Sample.db None).
  vm_compute. reflexivity.
Defined.

(** ** More on [get_device_to_settings_map] *)

Lemma golden_config_setting_Some db g s :
  golden_config_setting db g = Some s →
  s ∈ GoldenConfigSetting_objects db
  ∧ DynamicGroup.pk (GoldenConfigSetting.dynamic_group s) = DynamicGroup.pk g.
Proof.
  unfold golden_config_setting. intros Hfind.
  apply List.find_some in Hfind as [Hin Heq].
  split; [by apply list_elem_of_In|]. by apply String.eqb_eq.
Qed.

Lemma settings_map_entries db (R : string → GoldenConfigSetting.t → Prop)
      queryset m :
  (∀ k s, m !! k = Some s → R k s) →
  (∀ d s, d ∈ queryset → settings_of db d = Some s → R (Device.id d) s) →
  ∀ k s, foldl (map_device db) m queryset !! k = Some s → R k s.
Proof.
  revert m. induction queryset as [|d queryset IH]; intros m Hm Hq; [done|].
  simpl. apply IH.
  - intros k s. rewrite map_device_settings_of.
    destruct (settings_of db d) as [s'|] eqn:E; [|apply Hm].
    destruct (decide (Device.id d = k)) as [<-|Hne].
    + rewrite lookup_insert_eq. intros [= <-]. apply Hq; [by left|done].
    + rewrite lookup_insert_ne by done. apply Hm.
  - intros d' s' Hin. apply Hq. by right.
Qed.

(** X7.  Every entry of the map that [get_device_to_settings_map]
    returns comes from the queryset: its key is the id of a device of the
    queryset and its value is a row of the settings table, attached to a
    group that device belongs to, of the highest weight among the groups
    of that device that have settings. *)
Theorem get_device_to_settings_map_sound (db : Database)
    (queryset : list Device.t) (key : string) (s : GoldenConfigSetting.t) :
  get_device_to_settings_map db queryset !! key = Some s →
  ∃ d g,
    d ∈ queryset ∧ Device.id d = key
    ∧ qualifying db d g s
    ∧ s ∈ GoldenConfigSetting_objects db
    ∧ DynamicGroup.pk (GoldenConfigSetting.dynamic_group s) = DynamicGroup.pk g
    ∧ ∀ g' s', qualifying db d g' s' →
               GoldenConfigSetting.weight s' <= GoldenConfigSetting.weight s.
Proof.
  unfold get_device_to_settings_map.
  apply (settings_map_entries db
           (fun key s =>
              ∃ d g,
                d ∈ queryset ∧ Device.id d = key
                ∧ qualifying db d g s
                ∧ s ∈ GoldenConfigSetting_objects db
                ∧ DynamicGroup.pk (GoldenConfigSetting.dynamic_group s)
                  = DynamicGroup.pk g
                ∧ ∀ g' s', qualifying db d g' s' →
                           GoldenConfigSetting.weight s'
                           <= GoldenConfigSetting.weight s)).
  - intros k s'. by rewrite lookup_empty.
  - intros d s' Hin Hs.
    apply settings_of_Some in Hs as (g & Hq & Hmax).
    destruct (golden_config_setting_Some db g s' (proj2 Hq)) as [Hrow Hpk].
    by exists d, g.
Qed.

Lemma get_device_to_settings_map_sound_witness :
  ∃ d g,
    d ∈ [Sample.router; Sample.switch] ∧ Device.id d = "d1"
    ∧ qualifying Sample.db d g Sample.setting10
    ∧ Sample.setting10 ∈ GoldenConfigSetting_objects Sample.db
    ∧ DynamicGroup.pk (GoldenConfigSetting.dynamic_group Sample.setting10)
      = DynamicGroup.pk g
    ∧ ∀ g' s', qualifying Sample.db d g' s' →
               GoldenConfigSetting.weight s'
               <= GoldenConfigSetting.weight Sample.setting10.
Proof.
  apply (get_device_to_settings_map_sound
           Sample.db [Sample.router; Sample.switch] "d1" Sample.setting10).
  vm_compute. reflexivity.
Defined.

(** X8.  In a queryset whose rows are identified by their primary key,
    what the map holds for a device does not depend on the other devices:
    it is what the map of the queryset made of that device alone holds. *)
Theorem get_device_to_settings_map_local (db : Database)
    (queryset : list Device.t) (device : Device.t) :
  (∀ d1 d2, d1 ∈ queryset → d2 ∈ queryset →
            Device.id d1 = Device.id d2 → d1 = d2) →
  device ∈ queryset →
  get_device_to_settings_map db queryset !! Device.id device
  = get_device_to_settings_map db [device] !! Device.id device.
Proof.
  intros Hpk Hin.
  rewrite (get_device_to_settings_map_lookup db queryset device Hpk Hin).
  symmetry. apply get_device_to_settings_map_lookup.
  - intros d1 d2 H1%list_elem_of_singleton H2%list_elem_of_singleton _.
    congruence.
  - by apply list_elem_of_singleton.
Qed.

Lemma get_device_to_settings_map_local_witness :
  get_device_to_settings_map Sample.db [Sample.router; Sample.switch] !! "d1"
  = get_device_to_settings_map Sample.db [Sample.router] !! "d1".
Proof.
  apply (get_device_to_settings_map_local
           Sample.db [Sample.router; Sample.switch] Sample.router).
  - intros d1 d2 H1 H2.
    apply elem_of_cons in H1 as [->|H1%list_elem_of_singleton];
      apply elem_of_cons in H2 as [->|H2%list_elem_of_singleton];
      subst; try done; discriminate.
  - apply elem_of_cons. by left.
Defined.

(** ** More on [get_secret_by_secret_group_slug] *)

(** X9.  In a context that is exempt from the permission
    [extras.view_secretsgroup], every principal, also an anonymous one
    without any permission, gets the outcome of the secret lookup. *)
Theorem get_secret_by_secret_group_slug_exempt
    (permission_is_exempt : string -> bool) (db : Database) (user : User.t)
    (secrets_group_slug secret_type secret_access_type : string) :
  permission_is_exempt "extras.view_secretsgroup" = true →
  get_secret_by_secret_group_slug permission_is_exempt db user
    secrets_group_slug secret_type secret_access_type
  = lookup_secret db secrets_group_slug secret_type secret_access_type.
Proof.
  intros Hexempt. unfold get_secret_by_secret_group_slug.
  unfold permission_secrets_group. by rewrite Hexempt, orb_true_r.
Qed.

Lemma get_secret_by_secret_group_slug_exempt_witness :
  get_secret_by_secret_group_slug Sample.all_exempt Sample.db Sample.anonymous
    "sg1" "secret" TYPE_GENERIC
  = Return (Some "supersecretvalue").
Proof.
  transitivity (lookup_secret Sample.db "sg1" "secret" TYPE_GENERIC).
  - apply (get_secret_by_secret_group_slug_exempt
             Sample.all_exempt Sample.db Sample.anonymous "sg1" "secret"
             TYPE_GENERIC).
    reflexivity.
  - reflexivity.
Defined.

Lemma filter_none {A} (f : A → bool) (l : list A) :
  (∀ x, x ∈ l → f x = false) → List.filter f l = [].
Proof.
  induction l as [|x l IH]; simpl; [done|]. intros Hf.
  rewrite (Hf x) by by left. apply IH. intros y Hy. apply Hf. by right.
Qed.

Lemma find_skip {A} (f : A → bool) (skipped : list A) (x : A) (rest : list A) :
  (∀ y, y ∈ skipped → f y = false) → f x = true →
  List.find f (skipped ++ x :: rest) = Some x.
Proof.
  intros Hskip Hx. induction skipped as [|y skipped IH]; simpl.
  - by rewrite Hx.
  - rewrite (Hskip y) by by left. apply IH. intros z Hz. apply Hskip. by right.
Qed.

(** X10.  For a caller that passes the permission gate, a slug that no
    secrets group carries makes the call raise [SecretsGroup.DoesNotExist],
    and a slug carried by a single group that has no association for the
    access type and secret type makes it raise the association's
    [DoesNotExist]; neither case gives [None] or a string. *)
Theorem get_secret_by_secret_group_slug_not_found
    (permission_is_exempt : string -> bool) (db : Database) (user : User.t)
    (secrets_group_slug secret_type secret_access_type : string) :
  User.is_superuser user = true
  ∨ permission_is_exempt "extras.view_secretsgroup" = true
  ∨ (User.is_authenticated user = true
     ∧ "extras.view_secretsgroup" ∈ User.get_all_permissions user) →
  ((∀ g, g ∈ SecretsGroup_objects db →
         SecretsGroup.slug g ≠ secrets_group_slug) →
   get_secret_by_secret_group_slug permission_is_exempt db user
     secrets_group_slug secret_type secret_access_type
   = Raise (DoesNotExist "SecretsGroup"))
  ∧ (∀ before g after,
       SecretsGroup_objects db = before ++ g :: after →
       SecretsGroup.slug g = secrets_group_slug →
       (∀ g', g' ∈ before ++ after →
              SecretsGroup.slug g' ≠ secrets_group_slug) →
       (∀ a, a ∈ SecretsGroup.secrets g →
             ¬ (a.1.1 = secret_access_type ∧ a.1.2 = secret_type)) →
       get_secret_by_secret_group_slug permission_is_exempt db user
         secrets_group_slug secret_type secret_access_type
       = Raise (DoesNotExist "SecretsGroupAssociation")).
Proof.
  intros Hgate.
  assert (get_secret_by_secret_group_slug permission_is_exempt db user
            secrets_group_slug secret_type secret_access_type
          = lookup_secret db secrets_group_slug secret_type
                          secret_access_type) as ->.
  { unfold get_secret_by_secret_group_slug, permission_secrets_group.
    destruct Hgate as [-> | [-> | [-> Hperm]]]; [done|by rewrite orb_true_r|].
    rewrite bool_decide_eq_true_2 by done. simpl. by destruct (_ || _). }
  unfold lookup_secret, SecretsGroup_objects_get. split.
  - intros Hnone. rewrite filter_none; [done|].
    intros g Hg. apply String.eqb_neq. by apply Hnone.
  - intros before g after Htable Hslug Hothers Hassoc.
    rewrite Htable, List.filter_app. simpl.
    rewrite (proj2 (String.eqb_eq _ _) Hslug).
    rewrite !filter_none.
    + simpl. unfold get_secret_value.
      destruct (List.find _ _) as [a|] eqn:Hfind; [|done].
      apply List.find_some in Hfind as [Hin Heq].
      apply andb_true_iff in Heq as [H1%String.eqb_eq H2%String.eqb_eq].
      destruct (Hassoc a); [by apply list_elem_of_In|done].
    + intros g' Hg'. apply String.eqb_neq, Hothers, elem_of_app. by right.
    + intros g' Hg'. apply String.eqb_neq, Hothers, elem_of_app. by left.
Qed.

Lemma get_secret_by_secret_group_slug_not_found_witness :
  get_secret_by_secret_group_slug Sample.not_exempt Sample.db Sample.admin
    "unknown" "secret" TYPE_GENERIC
  = Raise (DoesNotExist "SecretsGroup")
  ∧ get_secret_by_secret_group_slug Sample.not_exempt Sample.db Sample.admin
      "sg1" "password" TYPE_GENERIC
    = Raise (DoesNotExist "SecretsGroupAssociation").
Proof.
  split.
  - apply (get_secret_by_secret_group_slug_not_found
             Sample.not_exempt Sample.db Sample.admin "unknown" "secret"
             TYPE_GENERIC); [by left|].
    intros g Hg. apply list_elem_of_singleton in Hg as ->. discriminate.
  - apply (get_secret_by_secret_group_slug_not_found
             Sample.not_exempt Sample.db Sample.admin "sg1" "password"
             TYPE_GENERIC (or_introl eq_refl)) with (before := [])
                                                   (g := Sample.sg1)
                                                   (after := []).
    + reflexivity.
    + reflexivity.
    + intros g' Hg'. by apply elem_of_nil in Hg'.
    + intros a Ha. apply list_elem_of_singleton in Ha as ->.
      intros [_ H]. discriminate H.
Defined.

(** X11.  For a caller that passes the permission gate: when a single
    secrets group carries the slug and the first of its associations for
    the access type and secret type resolves to [value], the call returns
    [value]. *)
Theorem get_secret_by_secret_group_slug_resolves
    (permission_is_exempt : string -> bool) (db : Database) (user : User.t)
    (secrets_group_slug secret_type secret_access_type : string)
    (before after : list SecretsGroup.t) (g : SecretsGroup.t)
    (skipped rest : list (string * string * result string))
    (value : string) :
  User.is_superuser user = true
  ∨ permission_is_exempt "extras.view_secretsgroup" = true
  ∨ (User.is_authenticated user = true
     ∧ "extras.view_secretsgroup" ∈ User.get_all_permissions user) →
  SecretsGroup_objects db = before ++ g :: after →
  SecretsGroup.slug g = secrets_group_slug →
  (∀ g', g' ∈ before ++ after → SecretsGroup.slug g' ≠ secrets_group_slug) →
  SecretsGroup.secrets g
  = skipped ++ (secret_access_type, secret_type, Return value) :: rest →
  (∀ a, a ∈ skipped →
        ¬ (a.1.1 = secret_access_type ∧ a.1.2 = secret_type)) →
  get_secret_by_secret_group_slug permission_is_exempt db user
    secrets_group_slug secret_type secret_access_type
  = Return (Some value).
Proof.
  intros Hgate Htable Hslug Hothers Hsecrets Hskipped.
  assert (get_secret_by_secret_group_slug permission_is_exempt db user
            secrets_group_slug secret_type secret_access_type
          = lookup_secret db secrets_group_slug secret_type
                          secret_access_type) as ->.
  { unfold get_secret_by_secret_group_slug, permission_secrets_group.
    destruct Hgate as [-> | [-> | [-> Hperm]]]; [done|by rewrite orb_true_r|].
    rewrite bool_decide_eq_true_2 by done. simpl. by destruct (_ || _). }
  unfold lookup_secret, SecretsGroup_objects_get.
  rewrite Htable, List.filter_app. simpl.
  rewrite (proj2 (String.eqb_eq _ _) Hslug).
  rewrite !filter_none.
  - simpl. unfold get_secret_value. rewrite Hsecrets.
    rewrite find_skip; [done| |].
    + intros a Ha. apply andb_false_iff.
      destruct (String.eqb_spec a.1.1 secret_access_type) as [H1|H1];
        [|by left].
      destruct (String.eqb_spec a.1.2 secret_type) as [H2|H2]; [|by right].
      by destruct (Hskipped a Ha).
    + simpl. by rewrite !String.eqb_refl.
  - intros g' Hg'. apply String.eqb_neq, Hothers, elem_of_app. by right.
  - intros g' Hg'. apply String.eqb_neq, Hothers, elem_of_app. by left.
Qed.

Lemma get_secret_by_secret_group_slug_resolves_witness :
  get_secret_by_secret_group_slug Sample.not_exempt Sample.db
    Sample.user_2_granted "sg1" "secret" "Generic"
  = Return (Some "supersecretvalue").
Proof.
  apply (get_secret_by_secret_group_slug_resolves
           Sample.not_exempt Sample.db Sample.user_2_granted
           "sg1" "secret" "Generic" [] [] Sample.sg1 [] [] "supersecretvalue").
  - right. right. split; [reflexivity|].
    simpl. by apply list_elem_of_singleton.
  - reflexivity.
  - reflexivity.
  - intros g' Hg'. by apply elem_of_nil in Hg'.
  - reflexivity.
  - intros a Ha. by apply elem_of_nil in Ha.
Defined.

(** X12.  What a caller that is refused gets does not depend on the
    directory, on the secret type or on the access type: the refusal is
    the same whether or not the secrets group or the secret exists. *)
Theorem get_secret_by_secret_group_slug_no_leak
    (permission_is_exempt : string -> bool) (db db' : Database)
    (user : User.t)
    (secrets_group_slug secret_type secret_type' : string)
    (secret_access_type secret_access_type' : string) :
  User.is_superuser user = false →
  permission_is_exempt "extras.view_secretsgroup" = false →
  User.is_authenticated user = false
  ∨ "extras.view_secretsgroup" ∉ User.get_all_permissions user →
  get_secret_by_secret_group_slug permission_is_exempt db user
    secrets_group_slug secret_type secret_access_type
  = get_secret_by_secret_group_slug permission_is_exempt db' user
      secrets_group_slug secret_type' secret_access_type'.
Proof.
  intros Hsuper Hexempt Hdenied.
  unfold get_secret_by_secret_group_slug, permission_secrets_group.
  rewrite Hsuper, Hexempt. simpl.
  destruct Hdenied as [-> | Hperm]; [done|].
  rewrite bool_decide_eq_false_2 by done. by rewrite orb_true_r.
Qed.

Lemma get_secret_by_secret_group_slug_no_leak_witness :
  get_secret_by_secret_group_slug Sample.not_exempt Sample.db Sample.user_2
    "sg1" "secret" "Generic"
  = get_secret_by_secret_group_slug Sample.not_exempt Sample.unconfigured
      Sample.user_2 "sg1" "password" "HTTP(S)".
Proof.
  apply (get_secret_by_secret_group_slug_no_leak
           Sample.not_exempt Sample.db Sample.unconfigured Sample.user_2
           "sg1" "secret" "password" "Generic" "HTTP(S)").
  - reflexivity.
  - reflexivity.
  - right. simpl. apply not_elem_of_nil.
Defined.

(** ** More on [render_jinja_template] *)

(** X13.  [render_jinja_template] hands back what the renderer returns
    and lets every exception that is not a template error through, in both
    cases without logging; it never lets a template error out as such; and
    it adds at most one entry to the log, which is then against the device
    being processed. *)
Theorem render_jinja_template_logging
    (render_jinja2 : string -> Device.t -> result string)
    (obj : Device.t) (logger : list LogEntry) (template_code : string) :
  let run := render_jinja_template render_jinja2 obj logger template_code in
  (∀ rendered, render_jinja2 template_code obj = Return rendered →
               run = (logger, Return rendered))
  ∧ (∀ e, render_jinja2 template_code obj = Raise e →
          (∀ error, e ≠ JinjaException error) →
          run = (logger, Raise e))
  ∧ (∀ error, snd run ≠ Raise (JinjaException error))
  ∧ (fst run = logger
     ∨ ∃ message, fst run = logger ++ [(Some obj, message)]
                  ∧ snd run = Raise (NornirNautobotException "")).
Proof.
  unfold render_jinja_template. cbn zeta. split_and!.
  - by intros rendered ->.
  - intros e -> Hother. destruct e as [| |j| | | | | |]; try done.
    by destruct (Hother j).
  - intros error.
    destruct (render_jinja2 template_code obj) as [|[| |[]| | | | | |]];
      simpl; try done.

  - destruct (render_jinja2 template_code obj) as [|[| |[]| | | | | |]];
      simpl; eauto.
Qed.

Lemma render_jinja_template_logging_witness :
  render_jinja_template Sample.render_jinja2_plain Sample.router []
                        "hostname router1"
  = ([], Return "hostname router1").
Proof.
  pose proof (render_jinja_template_logging
                Sample.render_jinja2_plain Sample.router []
                "hostname router1") as [H _].
  apply H. reflexivity.
Defined.

(** ** More on [render_secrets] *)

(** X15.  The filters [render_secrets] registers are the secret filter
    and those of netutils' [encrypt_type5] and [encrypt_type7] that the
    catalogue offers; no other filter of the catalogue is registered. *)
Theorem registered_filters_whitelist (ext : Services) (name : string) :
  name ∈ registered_filters ext
  ↔ name = "get_secret_by_secret_group_slug"
    ∨ (name ∈ jinja2_convenience_function ext
       ∧ (name = "encrypt_type5" ∨ name = "encrypt_type7")).
Proof.
  unfold registered_filters.
  rewrite elem_of_app, list_elem_of_singleton, list_elem_of_In, List.filter_In.
  rewrite <- list_elem_of_In, bool_decide_eq_true.
  rewrite !elem_of_cons, elem_of_nil. tauto.
Qed.

(** X16.  When compiling the text raises a template assertion error,
    [render_secrets] does not raise: it returns a text that quotes the
    error, after the compilation alone.  Any other exception of the
    compilation, a plain syntax error included, leaves [render_secrets]
    unchanged, and neither settings nor context data are fetched. *)
Theorem render_secrets_compile_errors
    (ext : Services) (db : Database) (config_to_push : string)
    (configs : GoldenConfig.t) (request : HttpRequest.t) (text : string) :
  config_to_render config_to_push configs = Some text →
  text ≠ "" →
  (∀ lineno tae,
     from_string ext text
     = Raise (JinjaException (TemplateAssertionError lineno tae)) →
     render_secrets ext db config_to_push configs request
     = ([FromString text],
        Return ("Jinja encountered an TemplateAssertionError: '" +:+ tae
                  +:+ "'; check the template for correctness")))
  ∧ (∀ e,
       from_string ext text = Raise e →
       (∀ lineno tae, e ≠ JinjaException (TemplateAssertionError lineno tae)) →
       render_secrets ext db config_to_push configs request
       = ([FromString text], Raise e)).
Proof.
  intros Htext Hne. unfold render_secrets. rewrite Htext.
  destruct text as [|c text]; [done|]. split.
  - by intros lineno tae ->.
  - intros e -> Hother.
    destruct e as [| |[| |n m|]| | | | | |]; try done.
    by destruct (Hother n m).
Qed.

Lemma render_secrets_compile_errors_witness :
  render_secrets
    (Sample.uncompilable
       (JinjaException (TemplateAssertionError 1 "no filter named 'md5'")))
    Sample.db "" Sample.configs Sample.request
  = ([FromString "hostname {{ hostname }}"],
     Return "Jinja encountered an TemplateAssertionError: 'no filter named 'md5''; check the template for correctness")
  ∧ render_secrets
      (Sample.uncompilable
         (JinjaException (TemplateSyntaxError 1 "unexpected '}'")))
      Sample.db "" Sample.configs Sample.request
    = ([FromString "hostname {{ hostname }}"],
       Raise (JinjaException (TemplateSyntaxError 1 "unexpected '}'"))).
Proof.
  split.
  - destruct (render_secrets_compile_errors
                (Sample.uncompilable
                   (JinjaException
                      (TemplateAssertionError 1 "no filter named 'md5'")))
                Sample.db "" Sample.configs Sample.request
                "hostname {{ hostname }}" eq_refl) as [H _].
    + discriminate.
    + apply (H 1%N "no filter named 'md5'"). reflexivity.
  - destruct (render_secrets_compile_errors
                (Sample.uncompilable
                   (JinjaException (TemplateSyntaxError 1 "unexpected '}'")))
                Sample.db "" Sample.configs Sample.request
                "hostname {{ hostname }}" eq_refl) as [_ H].
    + discriminate.
    + apply H; [reflexivity|]. intros lineno tae. discriminate.
Defined.

Lemma settings_of_None_iff db device :
  settings_of db device = None ↔ ∀ g s, ¬ qualifying db device g s.
Proof.
  split; [apply settings_of_None|]. intros Hnone.
  destruct (settings_of db device) as [s|] eqn:E; [|done].
  apply settings_of_Some in E as (g & Hq & _). by destruct (Hnone g s).
Qed.

Lemma elem_of_Device_objects_filter_pk db pk d :
  d ∈ Device_objects_filter_pk db pk ↔ d ∈ Device_objects db ∧ Device.id d = pk.
Proof.
  unfold Device_objects_filter_pk.
  rewrite list_elem_of_In, List.filter_In, <- list_elem_of_In.
  by rewrite String.eqb_eq.
Qed.

(** X17.  When no row of the device table with the device's id belongs
    to a group that has settings, [render_secrets] raises [KeyError] for
    the device's id, after compiling the text and before any context data
    is fetched or anything is rendered. *)
Theorem render_secrets_without_settings
    (ext : Services) (db : Database) (config_to_push : string)
    (configs : GoldenConfig.t) (request : HttpRequest.t)
    (text : string) (template : Template.t) :
  config_to_render config_to_push configs = Some text →
  text ≠ "" →
  from_string ext text = Return template →
  (∀ d, d ∈ Device_objects db →
        Device.id d = Device.id (GoldenConfig.device configs) →
        ∀ g s, ¬ qualifying db d g s) →
  render_secrets ext db config_to_push configs request
  = ([FromString text],
     Raise (KeyError (Device.id (GoldenConfig.device configs)))).
Proof.
  intros Htext Hne Hcompile Hnone. unfold render_secrets. rewrite Htext.
  destruct text as [|c text]; [done|]. rewrite Hcompile.
  unfold get_device_to_settings_map.
  rewrite (settings_map_lookup_keep db _ ∅ _ None); [done| |done].
  intros d [Hd Hid]%elem_of_Device_objects_filter_pk _.
  apply settings_of_None_iff. by apply Hnone.
Qed.

Lemma render_secrets_without_settings_witness :
  render_secrets Sample.services Sample.db "" Sample.switch_configs
                 Sample.request
  = ([FromString "hostname switch2"], Raise (KeyError "d2")).
Proof.
  apply (render_secrets_without_settings
           Sample.services Sample.db "" Sample.switch_configs Sample.request
           "hostname switch2" {| Template.source := "hostname switch2" |}).
  - reflexivity.
  - discriminate.
  - reflexivity.
  - intros d Hd Hid g s [Hg _].
    apply elem_of_cons in Hd as [->|Hd%list_elem_of_singleton];
      [discriminate Hid|subst d].
    simpl in Hg. by apply elem_of_nil in Hg.
Defined.

(** X18.  When the rows of the device table are identified by their
    primary key and the device is one of them, every GraphQL query that
    [render_secrets] makes is for that device and is the query of the
    settings object of highest weight among the groups of the device that
    have settings. *)
Theorem render_secrets_context_query
    (ext : Services) (db : Database) (config_to_push : string)
    (configs : GoldenConfig.t) (request : HttpRequest.t)
    (device_id query : string) :
  let device := GoldenConfig.device configs in
  (∀ d1 d2, d1 ∈ Device_objects db → d2 ∈ Device_objects db →
            Device.id d1 = Device.id d2 → d1 = d2) →
  device ∈ Device_objects db →
  GraphQLQueryCall device_id query
  ∈ fst (render_secrets ext db config_to_push configs request) →
  device_id = Device.id device
  ∧ ∃ g s sot_agg_query,
      qualifying db device g s
      ∧ (∀ g' s', qualifying db device g' s' →
                  GoldenConfigSetting.weight s'
                  <= GoldenConfigSetting.weight s)
      ∧ GoldenConfigSetting.sot_agg_query s = Some sot_agg_query
      ∧ query = GraphQLQuery.query sot_agg_query.
Proof.
  intros device Hpk Hdevice.
  assert (get_device_to_settings_map db
            (Device_objects_filter_pk db (Device.id device))
            !! Device.id device
          = settings_of db device) as Hmap.
  { apply get_device_to_settings_map_lookup.
    - intros d1 d2 [H1 _]%elem_of_Device_objects_filter_pk
                   [H2 _]%elem_of_Device_objects_filter_pk.
      by apply Hpk.
    - by apply elem_of_Device_objects_filter_pk. }
  unfold render_secrets. fold device. rewrite Hmap.
  assert (∀ s sot,
            settings_of db device = Some s →
            GoldenConfigSetting.sot_agg_query s = Some sot →
            ∃ g s' sot',
              qualifying db device g s'
              ∧ (∀ g' s'', qualifying db device g' s'' →
                           GoldenConfigSetting.weight s''
                           <= GoldenConfigSetting.weight s')
              ∧ GoldenConfigSetting.sot_agg_query s' = Some sot'
              ∧ GraphQLQuery.query sot = GraphQLQuery.query sot') as Hchosen.
  { intros s sot Hs Hsot. apply settings_of_Some in Hs as (g & Hq & Hmax).
    by exists g, s, sot. }
  repeat case_match; cbn [fst];
    rewrite ?elem_of_cons, ?elem_of_nil; intros Hin;
    repeat (destruct Hin as [Hin|Hin]); try done; simplify_eq;
    (split; [done|]); by eapply Hchosen.
Qed.

Lemma render_secrets_context_query_witness :
  "d1" = Device.id (GoldenConfig.device Sample.configs)
  ∧ ∃ g s sot_agg_query,
      qualifying Sample.db (GoldenConfig.device Sample.configs) g s
      ∧ (∀ g' s', qualifying Sample.db (GoldenConfig.device Sample.configs)
                             g' s' →
                  GoldenConfigSetting.weight s'
                  <= GoldenConfigSetting.weight s)
      ∧ GoldenConfigSetting.sot_agg_query s = Some sot_agg_query
      ∧ GraphQLQuery.query Sample.query = GraphQLQuery.query sot_agg_query.
Proof.
  apply (render_secrets_context_query
           Sample.services Sample.db "" Sample.configs Sample.request
           "d1" (GraphQLQuery.query Sample.query)).
  - intros d1 d2 H1 H2.
    apply elem_of_cons in H1 as [->|H1%list_elem_of_singleton];
      apply elem_of_cons in H2 as [->|H2%list_elem_of_singleton];
      subst; try done; discriminate.
  - apply elem_of_cons. by left.
  - vm_compute. apply elem_of_cons. right. apply elem_of_cons. by left.
Defined.

(** X19.  An exception of the GraphQL executor leaves [render_secrets]
    unchanged, without anything being rendered; and an exception of the
    rendering that is not a template error (one raised inside the secret
    filter, say) leaves it unchanged as well: only template errors become
    [RenderConfigToPushError]. *)
Theorem render_secrets_other_errors
    (ext : Services) (db : Database) (config_to_push : string)
    (configs : GoldenConfig.t) (request : HttpRequest.t)
    (text : string) (template : Template.t)
    (settings : GoldenConfigSetting.t) (sot_agg_query : GraphQLQuery.t)
    (e : exn) :
  let device := GoldenConfig.device configs in
  let query := GraphQLQuery.query sot_agg_query in
  config_to_render config_to_push configs = Some text →
  text ≠ "" →
  from_string ext text = Return template →
  get_device_to_settings_map db
    (Device_objects_filter_pk db (Device.id device)) !! Device.id device
  = Some settings →
  GoldenConfigSetting.sot_agg_query settings = Some sot_agg_query →
  (graph_ql_query ext request device query = Raise e →
   render_secrets ext db config_to_push configs request
   = ([FromString text; GraphQLQueryCall (Device.id device) query], Raise e))
  ∧ (∀ status device_data,
       graph_ql_query ext request device query
       = Return (status, device_data) →
       template_render ext (registered_filters ext)
                       (bound_secret_filter ext db request)
                       template device_data
       = Raise e →
       (∀ error, e ≠ JinjaException error) →
       render_secrets ext db config_to_push configs request
       = ([FromString text; GraphQLQueryCall (Device.id device) query;
           TemplateRender template device_data],
          Raise e)).
Proof.
  intros device query Htext Hne Hcompile Hsettings Hsot.
  unfold render_secrets. fold device. rewrite Htext.
  destruct text as [|c text]; [done|].
  rewrite Hcompile, Hsettings, Hsot. fold query. split.
  - by intros ->.
  - intros status device_data -> -> Hother.
    destruct e as [| |j| | | | | |]; try done. by destruct (Hother j).
Qed.

Lemma render_secrets_other_errors_witness :
  render_secrets Sample.unreachable Sample.db "" Sample.configs Sample.request
  = ([FromString "hostname {{ hostname }}";
      GraphQLQueryCall "d1" (GraphQLQuery.query Sample.query)],
     Raise (TypeError "connection refused")).
Proof.
  destruct (render_secrets_other_errors
              Sample.unreachable Sample.db "" Sample.configs Sample.request
              "hostname {{ hostname }}"
              {| Template.source := "hostname {{ hostname }}" |}
              Sample.setting10 Sample.query (TypeError "connection refused"))
    as [H _].
  - reflexivity.
  - discriminate.
  - reflexivity.
  - vm_compute. reflexivity.
  - reflexivity.
  - apply H. reflexivity.
Defined.

(** ** More on [get_config_to_push] *)

Section pipeline_calls.
Context (configs : GoldenConfig.t) (request : HttpRequest.t).
Context (registered : list Callable.t).

Lemma run_callables_raise func_name funcs idx cur flow before inv after
      func e :
  drop idx registered = funcs →
  run_callables configs request func_name idx funcs cur
  = (before ++ inv :: after, flow) →
  registered !! stage inv = Some func →
  Callable.call func (current_output inv) configs request = Raise e →
  (∀ error, e ≠ RenderConfigToPushError error) →
  after = [] ∧ flow = Raised e.
Proof.
  revert idx cur before.
  induction funcs as [|f rest IH];
    intros idx cur before Hdrop Hrun Hfunc Hcall Hother; simpl in Hrun.
  { injection Hrun as Htrace _. by destruct before. }
  apply drop_step in Hdrop as [Hlook Hdrop].
  destruct (String.eqb _ _); [|by eapply IH].
  destruct (Callable.call f cur configs request) as [out|e'] eqn:Hf.
  - destruct (run_callables _ _ _ _ rest out) as [trace' flow'] eqn:Hrest.
    injection Hrun as Htrace ->.
    destruct before as [|inv0 before]; simpl in Htrace.
    + injection Htrace as <- _. simpl in Hfunc, Hcall. congruence.
    + injection Htrace as _ ->. by eapply IH.
  - assert (before ++ inv :: after
            = [{| stage := idx; current_output := cur |}]
            ∧ ((∀ error, e' ≠ RenderConfigToPushError error) →
               flow = Raised e')) as [Htrace Hflow].
    { destruct e'; injection Hrun as <- <-; split; try done.
      intros Hne. by destruct (Hne message). }
    destruct before as [|? [|? ?]]; simpl in Htrace; [|done|done].
    injection Htrace as -> ->. simpl in Hfunc, Hcall.
    rewrite Hlook in Hfunc. injection Hfunc as <-. rewrite Hf in Hcall.
    injection Hcall as ->. split; [done|]. by apply Hflow.
Qed.

Lemma run_subscribed_raise names cur outcome before inv after func e :
  run_subscribed configs request registered names cur
  = (before ++ inv :: after, outcome) →
  registered !! stage inv = Some func →
  Callable.call func (current_output inv) configs request = Raise e →
  (∀ error, e ≠ RenderConfigToPushError error) →
  after = [] ∧ outcome = Raise e.
Proof.
  revert cur before.
  induction names as [|func_name names IH];
    intros cur before Hrun Hfunc Hcall Hother; simpl in Hrun.
  { injection Hrun as Htrace _. by destruct before. }
  destruct (run_callables _ _ _ _ _ cur) as [trace1 flow] eqn:Hinner.
  destruct flow as [out|value|e'].
  - destruct (run_subscribed _ _ _ names out) as [trace2 outcome2] eqn:Hrest.
    injection Hrun as Htrace ->.
    apply app_eq_inv in Htrace as [(k & -> & Hk)|(k & -> & Hk)].
    + destruct k as [|inv' k]; simpl in Hk.
      * subst trace2. by eapply (IH _ []).
      * injection Hk as -> ->.
        by destruct (run_callables_raise _ _ _ _ _ _ _ _ _ _
                       eq_refl Hinner Hfunc Hcall Hother).
    + subst trace2. by eapply IH.
  - injection Hrun as -> <-.
    by destruct (run_callables_raise _ _ _ _ _ _ _ _ _ _
                   eq_refl Hinner Hfunc Hcall Hother).
  - injection Hrun as -> <-.
    destruct (run_callables_raise _ _ _ _ _ _ _ _ _ _
                eq_refl Hinner Hfunc Hcall Hother) as [-> Hflow].
    by injection Hflow as ->.
Qed.

Lemma run_callables_named func_name funcs idx cur trace flow inv :
  drop idx registered = funcs →
  run_callables configs request func_name idx funcs cur = (trace, flow) →
  inv ∈ trace →
  ∃ func, registered !! stage inv = Some func
          ∧ Callable.__name__ func = func_name.
Proof.
  revert idx cur trace.
  induction funcs as [|f rest IH]; intros idx cur trace Hdrop Hrun Hin;
    simpl in Hrun.
  { injection Hrun as <- _. by apply elem_of_nil in Hin. }
  apply drop_step in Hdrop as [Hlook Hdrop].
  destruct (String.eqb_spec (Callable.__name__ f) func_name) as [Hname|_];
    [|by eapply IH].
  assert (inv = {| stage := idx; current_output := cur |} →
          ∃ func, registered !! stage inv = Some func
                  ∧ Callable.__name__ func = func_name) as Hhere.
  { intros ->. by exists f. }
  destruct (Callable.call f cur configs request) as [out|e].
  - destruct (run_callables _ _ _ _ rest out) as [trace' flow'] eqn:Hrest.
    injection Hrun as <- ->.
    apply elem_of_cons in Hin as [->|Hin]; [by apply Hhere|by eapply IH].
  - assert (trace = [{| stage := idx; current_output := cur |}]) as ->
      by (destruct e; by injection Hrun as <- _).
    apply list_elem_of_singleton in Hin. by apply Hhere.
Qed.

Lemma run_subscribed_named names cur trace outcome inv :
  run_subscribed configs request registered names cur = (trace, outcome) →
  inv ∈ trace →
  ∃ func, registered !! stage inv = Some func
          ∧ Callable.__name__ func ∈ names.
Proof.
  revert cur trace.
  induction names as [|func_name names IH]; intros cur trace Hrun Hin;
    simpl in Hrun.
  { injection Hrun as <- _. by apply elem_of_nil in Hin. }
  destruct (run_callables _ _ _ _ _ cur) as [trace1 flow] eqn:Hinner.
  assert (inv ∈ trace1 →
          ∃ func, registered !! stage inv = Some func
                  ∧ Callable.__name__ func ∈ func_name :: names) as Hfirst.
  { intros Hin1.
    destruct (run_callables_named _ _ 0 _ _ _ _ eq_refl Hinner Hin1)
      as (func & Hfunc & <-).
    exists func. split; [done|by left]. }
  destruct flow as [out|value|e].
  - destruct (run_subscribed _ _ _ names out) as [trace2 outcome2] eqn:Hrest.
    injection Hrun as <- ->.
    apply elem_of_app in Hin as [Hin|Hin]; [by apply Hfirst|].
    destruct (IH _ _ Hrest Hin) as (func & Hfunc & Hname).
    exists func. split; [done|by right].
  - injection Hrun as <- _. by apply Hfirst.
  - injection Hrun as <- _. by apply Hfirst.
Qed.

Lemma run_subscribed_none names cur :
  (∀ n func, n ∈ names → func ∈ registered → Callable.__name__ func ≠ n) →
  run_subscribed configs request registered names cur = ([], Return cur).
Proof.
  induction names as [|n names IH]; intros Hnone; simpl; [done|].
  destruct (run_callables_skip configs request n 0 registered cur) as [-> _].
  { intros func Hfunc. apply Hnone; [by left|done]. }
  rewrite IH; [done|]. intros n' func Hn'. apply Hnone. by right.
Qed.
End pipeline_calls.

(** X20.  When a call recorded in the trace of [get_config_to_push]
    raised an exception other than [RenderConfigToPushError], no further
    call is made and [get_config_to_push] raises that exception: only
    [RenderConfigToPushError] is turned into a text. *)
Theorem get_config_to_push_propagates
    (ext : Services) (db : Database) (PLUGIN_CFG : PluginConfig.t)
    (configs : GoldenConfig.t) (request : HttpRequest.t)
    (custom_subscribed : option (list string))
    (before : list Invocation) (inv : Invocation) (after : list Invocation)
    (func : Callable.t) (e : exn) :
  let run :=
    get_config_to_push ext db PLUGIN_CFG configs request custom_subscribed in
  fst run = before ++ inv :: after →
  callables ext db PLUGIN_CFG !! stage inv = Some func →
  Callable.call func (current_output inv) configs request = Raise e →
  (∀ error, e ≠ RenderConfigToPushError error) →
  after = [] ∧ snd run = Raise e.
Proof.
  intros run Htrace Hfunc Hcall Hother. subst run.
  unfold get_config_to_push in *.
  destruct (run_subscribed _ _ _ _ _) as [trace outcome] eqn:Hrun.
  cbn [fst snd] in *. subst trace.
  by eapply run_subscribed_raise.
Qed.

Lemma get_config_to_push_propagates_witness :
  snd (get_config_to_push Sample.services Sample.db Sample.defaults
                          Sample.switch_configs Sample.request None)
  = Raise (KeyError "d2").
Proof.
  destruct (get_config_to_push_propagates
              Sample.services Sample.db Sample.defaults Sample.switch_configs
              Sample.request None [] {| stage := 0; current_output := "" |} []
              (render_secrets_callable Sample.services Sample.db)
              (KeyError "d2")) as [_ H].
  - vm_compute. reflexivity.
  - reflexivity.
  - vm_compute. reflexivity.
  - intros error. discriminate.
  - exact H.
Defined.

(** X21.  Every call that [get_config_to_push] makes is a call of a
    registered function whose name is in the list of subscribed names: a
    registered function that is not subscribed is never called. *)
Theorem get_config_to_push_calls_subscribed
    (ext : Services) (db : Database) (PLUGIN_CFG : PluginConfig.t)
    (configs : GoldenConfig.t) (request : HttpRequest.t)
    (custom_subscribed : option (list string)) (inv : Invocation) :
  inv ∈ fst (get_config_to_push ext db PLUGIN_CFG configs request
                                custom_subscribed) →
  ∃ func, callables ext db PLUGIN_CFG !! stage inv = Some func
          ∧ Callable.__name__ func ∈ subscribed PLUGIN_CFG custom_subscribed.
Proof.
  unfold get_config_to_push.
  destruct (run_subscribed _ _ _ _ _) as [trace outcome] eqn:Hrun.
  cbn [fst]. intros Hin. by eapply run_subscribed_named.
Qed.

Lemma get_config_to_push_calls_subscribed_witness :
  ∃ func,
    callables Sample.services Sample.db Sample.with_banner !! 0%nat = Some func
    ∧ Callable.__name__ func ∈ subscribed Sample.with_banner None.
Proof.
  apply (get_config_to_push_calls_subscribed
           Sample.services Sample.db Sample.with_banner Sample.configs
           Sample.request None {| stage := 0; current_output := "" |}).
  vm_compute. apply elem_of_cons. by left.
Defined.

(** X22.  When the subscribed names are the default, [render_secrets]
    alone, and no function registered through the plugin configuration is
    called [render_secrets], [get_config_to_push] makes the single call of
    [render_secrets] on the empty string and returns what it returns; a
    [RenderConfigToPushError] becomes the error text and any other
    exception is raised. *)
Theorem get_config_to_push_default
    (ext : Services) (db : Database) (PLUGIN_CFG : PluginConfig.t)
    (configs : GoldenConfig.t) (request : HttpRequest.t)
    (custom_subscribed : option (list string)) :
  subscribed PLUGIN_CFG custom_subscribed = ["render_secrets"] →
  (∀ func, func ∈ default [] (PluginConfig.config_push_callable PLUGIN_CFG) →
           Callable.__name__ func ≠ "render_secrets") →
  get_config_to_push ext db PLUGIN_CFG configs request custom_subscribed
  = ([{| stage := 0; current_output := "" |}],
     match snd (render_secrets ext db "" configs request) with
     | Return config_to_push => Return config_to_push
     | Raise (RenderConfigToPushError error) =>
         Return ("Find an error rendering the configuration to push: "
                   +:+ error)
     | Raise e => Raise e
     end).
Proof.
  intros Hnames Hextra. unfold get_config_to_push. rewrite Hnames.
  unfold callables. cbn [run_subscribed run_callables].
  change (Callable.__name__ (render_secrets_callable ext db))
    with "render_secrets".
  rewrite String.eqb_refl.
  change (Callable.call (render_secrets_callable ext db) "" configs request)
    with (snd (render_secrets ext db "" configs request)).
  destruct (snd (render_secrets ext db "" configs request)) as [out|e].
  - destruct (run_callables_skip configs request "render_secrets" 1
                (default [] (PluginConfig.config_push_callable PLUGIN_CFG))
                out Hextra) as [-> _].
    done.
  - by destruct e.
Qed.

Lemma get_config_to_push_default_witness :
  get_config_to_push Sample.services Sample.db Sample.with_banner
                     Sample.configs Sample.request (Some [])
  = ([{| stage := 0; current_output := "" |}],
     match snd (render_secrets Sample.services Sample.db "" Sample.configs
                               Sample.request) with
     | Return config_to_push => Return config_to_push
     | Raise (RenderConfigToPushError error) =>
         Return ("Find an error rendering the configuration to push: "
                   +:+ error)
     | Raise e => Raise e
     end).
Proof.
  apply (get_config_to_push_default
           Sample.services Sample.db Sample.with_banner Sample.configs
           Sample.request (Some [])).
  - reflexivity.
  - intros func Hfunc. apply list_elem_of_singleton in Hfunc as ->.
    discriminate.
Defined.

(** X23.  When none of the subscribed names is the name of a registered
    function, [get_config_to_push] calls nothing and returns the empty
    string, without any error. *)
Theorem get_config_to_push_nothing_registered
    (ext : Services) (db : Database) (PLUGIN_CFG : PluginConfig.t)
    (configs : GoldenConfig.t) (request : HttpRequest.t)
    (custom_subscribed : option (list string)) :
  (∀ n func, n ∈ subscribed PLUGIN_CFG custom_subscribed →
             func ∈ callables ext db PLUGIN_CFG →
             Callable.__name__ func ≠ n) →
  get_config_to_push ext db PLUGIN_CFG configs request custom_subscribed
  = ([], Return "").
Proof.
  intros Hnone. unfold get_config_to_push. by apply run_subscribed_none.
Qed.

Lemma get_config_to_push_nothing_registered_witness :
  get_config_to_push Sample.services Sample.db Sample.with_banner
                     Sample.configs Sample.request
                     (Some ["encrypt"; "sign"])
  = ([], Return "").
Proof.
  apply (get_config_to_push_nothing_registered
           Sample.services Sample.db Sample.with_banner Sample.configs
           Sample.request (Some ["encrypt"; "sign"])).
  intros n func Hn Hfunc.
  change (subscribed Sample.with_banner (Some ["encrypt"; "sign"]))
    with ["encrypt"; "sign"] in Hn.
  apply elem_of_cons in Hn as [->|Hn%list_elem_of_singleton];
    apply elem_of_cons in Hfunc as [->|Hfunc%list_elem_of_singleton];
    subst; discriminate.
Defined.

(** ** [get_device_to_settings_map] and the order of the queryset *)

Lemma get_device_to_settings_map_None db queryset key :
  (∀ d, d ∈ queryset → Device.id d ≠ key) →
  get_device_to_settings_map db queryset !! key = None.
Proof.
  intros Hnone.
  destruct (get_device_to_settings_map db queryset !! key) as [s|] eqn:E;
    [|done].
  unfold get_device_to_settings_map in E.
  apply (settings_map_entries db
           (fun key s => ∃ d, d ∈ queryset ∧ Device.id d = key)) in E
    as (d & Hd & Hid).
  - by destruct (Hnone d Hd).
  - intros k s'. by rewrite lookup_empty.
  - intros d s' Hd _. by exists d.
Qed.

(** X24.  For querysets whose rows are identified by their primary key,
    the map does not depend on the order in which the devices are visited:
    two querysets with the same devices give the same map. *)
Theorem get_device_to_settings_map_order (db : Database)
    (queryset queryset' : list Device.t) :
  (∀ d1 d2, d1 ∈ queryset → d2 ∈ queryset →
            Device.id d1 = Device.id d2 → d1 = d2) →
  queryset ≡ₚ queryset' →
  get_device_to_settings_map db queryset
  = get_device_to_settings_map db queryset'.
Proof.
  intros Hpk Hperm.
  assert (∀ d, d ∈ queryset' ↔ d ∈ queryset) as Hsame
    by (intros d; by rewrite Hperm).
  assert (∀ d1 d2, d1 ∈ queryset' → d2 ∈ queryset' →
                   Device.id d1 = Device.id d2 → d1 = d2) as Hpk'.
  { intros d1 d2 H1%Hsame H2%Hsame. by apply Hpk. }
  assert (∀ l key s,
            (∀ d, d ∈ l → d ∈ queryset) →
            get_device_to_settings_map db l !! key = Some s →
            ∃ d, d ∈ queryset ∧ Device.id d = key) as Hkey.
  { intros l key s Hsub Hlook. unfold get_device_to_settings_map in Hlook.
    apply (settings_map_entries db
             (fun key s => ∃ d, d ∈ queryset ∧ Device.id d = key)) in Hlook;
      [done| |].
    - intros k s'. by rewrite lookup_empty.
    - intros d s' Hd _. exists d. split; [by apply Hsub|done]. }
  apply map_eq. intros key.
  destruct (get_device_to_settings_map db queryset !! key) as [s|] eqn:E.
  - destruct (Hkey queryset key s (fun d H => H) E) as (d & Hd & <-).
    pose proof (get_device_to_settings_map_lookup db queryset d Hpk Hd) as X.
    pose proof (get_device_to_settings_map_lookup db queryset' d Hpk'
                  (proj2 (Hsame d) Hd)) as X'.
    exact (eq_trans (eq_sym E) (eq_trans X (eq_sym X'))).
  - destruct (get_device_to_settings_map db queryset' !! key) as [s'|] eqn:E';
      [|done].
    destruct (Hkey queryset' key s' (fun d H => proj1 (Hsame d) H) E')
      as (d & Hd & <-).
    pose proof (get_device_to_settings_map_lookup db queryset d Hpk Hd) as X.
    pose proof (get_device_to_settings_map_lookup db queryset' d Hpk'
                  (proj2 (Hsame d) Hd)) as X'.
    pose proof (eq_trans (eq_sym E') (eq_trans X' (eq_trans (eq_sym X) E)))
      as Hbad.
    discriminate Hbad.
Qed.

Lemma get_device_to_settings_map_order_witness :
  get_device_to_settings_map Sample.db [Sample.router; Sample.switch]
  = get_device_to_settings_map Sample.db [Sample.switch; Sample.router].
Proof.
  apply (get_device_to_settings_map_order
           Sample.db [Sample.router; Sample.switch]
           [Sample.switch; Sample.router]).
  - intros d1 d2 H1 H2.
    apply elem_of_cons in H1 as [->|H1%list_elem_of_singleton];
      apply elem_of_cons in H2 as [->|H2%list_elem_of_singleton];
      subst; try done; discriminate.
  - apply Permutation_swap.
Defined.
